(** * Flynn installer and stream package: a shallow embedding

    This development embeds two Go packages of the flynn repository,

    - [pkg/stream] (basic_stream.go): the [Basic] stream, and
    - [installer] (installer.go): the [Installer] facade with its cluster
      registry, its storage gateway and its credential lookup,

    and states properties of their exported operations.

    Go code is sequential code over mutable state, so every method becomes
    a function from a state to an [outcome]: a normal return with the new
    state, a panic, or a goroutine that blocks for ever on a lock. *)

From Stdlib Require Import String List ZArith Bool Arith Lia.
Import ListNotations.
Open Scope string_scope.
Open Scope list_scope.

Set Implicit Arguments.

(** ** Go errors

    [error] values that installer.go creates or tests for by identity, and
    one constructor for every other error a collaborator hands back. *)
Inductive error : Type :=
| ClusterNotFoundError                (* errors.New("Cluster not found") *)
| ErrNoRows                           (* sql.ErrNoRows *)
| ErrInvalidClusterType (T : string)  (* fmt.Errorf("Invalid cluster type %T", c) *)
| ErrOther (msg : string).

Definition error_eqb (a b : error) : bool :=
  match a, b with
  | ClusterNotFoundError, ClusterNotFoundError => true
  | ErrNoRows, ErrNoRows => true
  | ErrInvalidClusterType s, ErrInvalidClusterType t => String.eqb s t
  | ErrOther s, ErrOther t => String.eqb s t
  | _, _ => false
  end.

(** ** Outcomes and the state monad of a goroutine *)
Inductive outcome (S A : Type) : Type :=
| Ret (a : A) (s : S)          (* the call returned [a] *)
| Panic (msg : string) (s : S) (* the call panicked *)
| Block (s : S).               (* the goroutine waits for ever *)

Arguments Ret {S A} a s.
Arguments Panic {S A} msg s.
Arguments Block {S A} s.

Definition M (S A : Type) : Type := S -> outcome S A.

Definition ret {S A} (a : A) : M S A := fun s => Ret a s.

Definition bind {S A B} (m : M S A) (k : A -> M S B) : M S B :=
  fun s =>
    match m s with
    | Ret a s' => k a s'
    | Panic msg s' => Panic msg s'
    | Block s' => Block s'
    end.

Definition panic {S A} (msg : string) : M S A := fun s => Panic msg s.
Definition get {S} : M S S := fun s => Ret s s.
Definition modify {S} (f : S -> S) : M S unit := fun s => Ret tt (f s).

(** [defer_ cleanup body]: Go's [defer]. The deferred call runs when the
    body returns and also when it panics; a goroutine that is blocked
    never reaches it. *)
Definition defer_ {S A} (cleanup : M S unit) (body : M S A) : M S A :=
  fun s =>
    match body s with
    | Ret a s' =>
        match cleanup s' with
        | Ret _ s'' => Ret a s''
        | Panic msg s'' => Panic msg s''
        | Block s'' => Block s''
        end
    | Panic msg s' =>
        match cleanup s' with
        | Ret _ s'' => Panic msg s''
        | Panic msg' s'' => Panic msg' s''
        | Block s'' => Block s''
        end
    | Block s' => Block s'
    end.

Declare Scope go_scope.
Delimit Scope go_scope with go.
Notation "x <- m ;; k" := (bind m (fun x => k))
  (at level 100, m at next level, right associativity) : go_scope.
Notation "' p <- m ;; k" := (bind m (fun x => match x with p => k end))
  (at level 100, p pattern, m at next level, right associativity) : go_scope.
Notation "m ;; k" := (bind m (fun _ => k))
  (at level 100, right associativity) : go_scope.
Open Scope go_scope.

(** ** sync.RWMutex

    A writer flag and a reader count. The mutex is not reentrant: [RLock]
    waits while a writer holds it, also when that writer is the caller. *)
Record RWMutex : Type := mkRWMutex { writer : bool; readers : nat }.

Definition free_mutex : RWMutex := mkRWMutex false 0.

Definition mutex_Lock (m : RWMutex) : option RWMutex :=
  if writer m then None
  else match readers m with
       | 0 => Some (mkRWMutex true 0)
       | S _ => None
       end.

Definition mutex_Unlock (m : RWMutex) : option RWMutex :=
  if writer m then Some (mkRWMutex false (readers m)) else None.

Definition mutex_RLock (m : RWMutex) : option RWMutex :=
  if writer m then None else Some (mkRWMutex false (S (readers m))).

Definition mutex_RUnlock (m : RWMutex) : option RWMutex :=
  match readers m with
  | 0 => None
  | S n => Some (mkRWMutex (writer m) n)
  end.

(** ** pkg/stream: basic_stream.go *)
Module Stream.

Inductive chan_state : Type := ChanOpen | ChanClosed.

(** Channels are references: the heap maps a channel to its state. *)
Definition chan : Type := nat.
Definition Heap : Type := list chan_state.

(** What an [atomic.Value] holds: nothing yet, or a stored bool. *)
Inductive any : Type := ANil | ABool (b : bool).

Record Basic : Type := mkBasic {
  StopCh : chan;
  Error : option error;
  closed : any;          (* atomic.Value *)
  closeOnce : bool       (* sync.Once: has the function run? *)
}.

Definition make_chan : M Heap chan :=
  fun h => Ret (List.length h) (h ++ [ChanOpen]).

Definition close_chan (c : chan) : M Heap unit :=
  fun h =>
    match nth_error h c with
    | Some ChanOpen =>
        Ret tt (firstn c h ++ ChanClosed :: skipn (S c) h)
    | Some ChanClosed => Panic "close of closed channel" h
    | None => Panic "close of nil channel" h
    end.

Definition chan_closed (h : Heap) (c : chan) : bool :=
  match nth_error h c with
  | Some ChanClosed => true
  | _ => false
  end.

Definition closed_Store (v : bool) (b : Basic) : Basic :=
  mkBasic (StopCh b) (Error b) (ABool v) (closeOnce b).

(** [New]: allocate the stop channel, store [false] in [closed]. *)
Definition New : M Heap Basic :=
  ch <- make_chan ;;
  let b := mkBasic ch None ANil false in
  let b := closed_Store false b in
  ret b.

(** [Close] has a value receiver: it works on a copy [s] of the stream,
    so the store to [closed] and the [Once] are lost when it returns;
    only the channel, a reference, is shared with the caller. *)
Definition Close (s : Basic) : M Heap (option error) :=
  (if closeOnce s then ret tt
   else
     let s := closed_Store true s in
     close_chan (StopCh s)) ;;
  ret None.

(** [IsClosed]: [s.closed.Load().(bool)]; the assertion panics on an
    empty [atomic.Value]. *)
Definition IsClosed (s : Basic) : M Heap bool :=
  match closed s with
  | ABool v => ret v
  | ANil => panic "interface conversion: interface is nil, not bool"
  end.

Definition Err (s : Basic) : option error := Error s.

End Stream.

(** ** Storage: database/sql over the ql engine

    The engine is an external collaborator. What installer.go relies on is
    modelled here: tables with named columns, INSERT with positional
    parameters, single-row SELECT with one equality filter, and
    transactions that work on a private copy until they commit. Column
    and table names are compared as the strings they are. *)
Inductive val : Type := VNull | VStr (s : string) | VInt (n : Z).

Definition val_eqb (a b : val) : bool :=
  match a, b with
  | VStr s, VStr t => String.eqb s t
  | VInt n, VInt m => Z.eqb n m
  | _, _ => false      (* NULL compares equal to nothing *)
  end.

Definition row : Type := list val.

Record Table : Type := mkTable { schema : list string; rows : list row }.

Inductive table_name : Type :=
  T_clusters | T_aws_clusters | T_domains | T_credentials.

Record DB : Type := mkDB {
  clusters_tbl : Table;
  aws_clusters_tbl : Table;
  domains_tbl : Table;
  credentials_tbl : Table
}.

Definition get_table (t : table_name) (d : DB) : Table :=
  match t with
  | T_clusters => clusters_tbl d
  | T_aws_clusters => aws_clusters_tbl d
  | T_domains => domains_tbl d
  | T_credentials => credentials_tbl d
  end.

Definition set_table (t : table_name) (tb : Table) (d : DB) : DB :=
  match t with
  | T_clusters =>
      mkDB tb (aws_clusters_tbl d) (domains_tbl d) (credentials_tbl d)
  | T_aws_clusters =>
      mkDB (clusters_tbl d) tb (domains_tbl d) (credentials_tbl d)
  | T_domains =>
      mkDB (clusters_tbl d) (aws_clusters_tbl d) tb (credentials_tbl d)
  | T_credentials =>
      mkDB (clusters_tbl d) (aws_clusters_tbl d) (domains_tbl d) tb
  end.

(** [INSERT INTO t [(cols)] VALUES ($k1, ..., $kn)]. *)
Inductive stmt : Type :=
| InsertValues (t : table_name) (cols : option (list string))
               (params : list nat).

(** [SELECT q_select FROM q_from WHERE q_where == $1 LIMIT 1]. *)
Record query : Type := mkQuery {
  q_select : list string;
  q_from : table_name;
  q_where : string
}.

Fixpoint col_index (name : string) (sch : list string) : option nat :=
  match sch with
  | [] => None
  | c :: sch' =>
      if String.eqb c name then Some 0
      else option_map S (col_index name sch')
  end.

(** The value of column [name] in row [r] of a table with schema [sch]. *)
Definition field (sch : list string) (r : row) (name : string)
  : option val :=
  match col_index name sch with
  | Some i => nth_error r i
  | None => None
  end.

(** [$k] is the k-th argument of the call, counted from 1. *)
Definition bind_param (args : list val) (k : nat) : option val :=
  match k with
  | 0 => None
  | S k' => nth_error args k'
  end.

Fixpoint bind_params (args : list val) (ks : list nat)
  : option (list val) :=
  match ks with
  | [] => Some []
  | k :: ks' =>
      match bind_param args k, bind_params args ks' with
      | Some v, Some vs => Some (v :: vs)
      | _, _ => None
      end
  end.

Definition insert_row (tb : Table) (cols : option (list string))
           (vals : list val) : Table + error :=
  match cols with
  | None =>
      if Nat.eqb (List.length vals) (List.length (schema tb))
      then inl (mkTable (schema tb) (rows tb ++ [vals]))
      else inr (ErrOther "INSERT INTO: wrong number of values")
  | Some cs =>
      if negb (Nat.eqb (List.length vals) (List.length cs))
      then inr (ErrOther "INSERT INTO: wrong number of values")
      else if forallb (fun c => match col_index c (schema tb) with
                                | Some _ => true
                                | None => false
                                end) cs
      then inl (mkTable (schema tb)
                  (rows tb ++
                   [map (fun c => match col_index c cs with
                                  | Some i => nth i vals VNull
                                  | None => VNull
                                  end) (schema tb)]))
      else inr (ErrOther "INSERT INTO: unknown column")
  end.

Definition exec_stmt (args : list val) (s : stmt) (d : DB) : DB + error :=
  match s with
  | InsertValues t cols params =>
      match bind_params args params with
      | None => inr (ErrOther "missing parameter")
      | Some vals =>
          match insert_row (get_table t d) cols vals with
          | inl tb => inl (set_table t tb d)
          | inr e => inr e
          end
      end
  end.

(** Scan the rows in table order for the first one whose column [col]
    equals [key]; a filter that names a column the table does not have
    is an error as soon as a row is evaluated. *)
Fixpoint scan_rows (sch : list string) (col : string) (key : val)
         (rs : list row) : option row + error :=
  match rs with
  | [] => inl None
  | r :: rs' =>
      match field sch r col with
      | None => inr (ErrOther ("unknown field " ++ col)%string)
      | Some v => if val_eqb v key then inl (Some r)
                  else scan_rows sch col key rs'
      end
  end.

Fixpoint project (sch : list string) (r : row) (cols : list string)
  : list val + error :=
  match cols with
  | [] => inl []
  | c :: cols' =>
      match field sch r c, project sch r cols' with
      | Some v, inl vs => inl (v :: vs)
      | None, _ => inr (ErrOther ("unknown field " ++ c)%string)
      | _, inr e => inr e
      end
  end.

(** [QueryRow(q, key)] up to the row it finds; no row is [sql.ErrNoRows]. *)
Definition run_query (d : DB) (q : query) (key : string)
  : list val + error :=
  let tb := get_table (q_from q) d in
  match scan_rows (schema tb) (q_where q) (VStr key) (rows tb) with
  | inr e => inr e
  | inl None => inr ErrNoRows
  | inl (Some r) => project (schema tb) r (q_select q)
  end.

(** Failures the storage can answer with on its own account (I/O, a
    broken handle, a rejected statement): [None] means the operation
    goes through. *)
Record Faults : Type := mkFaults {
  f_compile : option error;
  f_begin : option error;
  f_exec : nat -> option error;     (* by position of the statement *)
  f_commit : option error;
  f_query : table_name -> option error
}.

Definition no_faults : Faults :=
  mkFaults None None (fun _ => None) None (fun _ => None).

(** ** installer: entities

    [Cluster], [Domain], [AWSCluster], [Event] and [Subscription] are
    declared in other files of the package. The records below carry the
    fields installer.go reads and writes; pointers are followed, so a
    record stands for the object it points to at the time of the call. *)
Record Domain : Type := mkDomain {
  Domain_ClusterID : string;
  Name : string;
  Token : string
}.

Record Cluster : Type := mkCluster {
  ID : string;
  CredentialID : string;
  Type_ : string;
  State : string;
  NumInstances : Z;
  ControllerKey : string;
  ControllerPin : string;
  DashboardLoginToken : string;
  CACert : string;
  SSHKeyName : string;
  VpcCidr : string;
  SubnetCidr : string;
  DiscoveryToken : string;
  DNSZoneID : string;
  Cluster_Domain : option Domain
}.

Record AWSCluster : Type := mkAWSCluster {
  ClusterID : string;
  cluster : Cluster
}.

(** A value of type [interface{}]: a pointer to an [AWSCluster], or a value of some
    other dynamic type, known by the name [%T] prints. *)
Inductive iface : Type :=
| IAWSCluster (v : AWSCluster)
| IOther (T : string).

Record Event : Type := mkEvent {
  Event_Type : string;
  Event_Cluster : option Cluster;
  Event_ClusterID : string
}.

Record Subscription : Type := mkSubscription {
  delivered : list Event
}.

Record CredentialsProvider : Type := mkCreds {
  AccessKeyID : string;
  SecretAccessKey : string;
  SecurityToken : string
}.

(** [aws.Creds(id, secret, token)]: a static provider of the triple. *)
Definition aws_Creds (id secret token : string) : CredentialsProvider :=
  mkCreds id secret token.

(** The host environment, as [os.Getenv] sees it. *)
Definition HostEnv : Type := string -> string.

(** ** installer: the Installer and the world around it *)
Record Installer : Type := mkInstaller {
  db : DB;
  events : list Event;
  subscriptions : list Subscription;
  clusters : list iface;
  dbMtx : RWMutex;
  eventsMtx : RWMutex;
  subscribeMtx : RWMutex;
  clustersMtx : RWMutex
}.

Inductive mtx : Type := DbMtx | EventsMtx | SubscribeMtx | ClustersMtx.

Definition get_mtx (m : mtx) (i : Installer) : RWMutex :=
  match m with
  | DbMtx => dbMtx i
  | EventsMtx => eventsMtx i
  | SubscribeMtx => subscribeMtx i
  | ClustersMtx => clustersMtx i
  end.

Definition set_mtx (m : mtx) (mu : RWMutex) (i : Installer) : Installer :=
  match m with
  | DbMtx =>
      mkInstaller (db i) (events i) (subscriptions i) (clusters i)
                  mu (eventsMtx i) (subscribeMtx i) (clustersMtx i)
  | EventsMtx =>
      mkInstaller (db i) (events i) (subscriptions i) (clusters i)
                  (dbMtx i) mu (subscribeMtx i) (clustersMtx i)
  | SubscribeMtx =>
      mkInstaller (db i) (events i) (subscriptions i) (clusters i)
                  (dbMtx i) (eventsMtx i) mu (clustersMtx i)
  | ClustersMtx =>
      mkInstaller (db i) (events i) (subscriptions i) (clusters i)
                  (dbMtx i) (eventsMtx i) (subscribeMtx i) mu
  end.

Definition set_db (d : DB) (i : Installer) : Installer :=
  mkInstaller d (events i) (subscriptions i) (clusters i)
              (dbMtx i) (eventsMtx i) (subscribeMtx i) (clustersMtx i).

Definition set_events (es : list Event) (i : Installer) : Installer :=
  mkInstaller (db i) es (subscriptions i) (clusters i)
              (dbMtx i) (eventsMtx i) (subscribeMtx i) (clustersMtx i).

Definition set_subscriptions (ss : list Subscription) (i : Installer)
  : Installer :=
  mkInstaller (db i) (events i) ss (clusters i)
              (dbMtx i) (eventsMtx i) (subscribeMtx i) (clustersMtx i).

Definition set_clusters (cs : list iface) (i : Installer) : Installer :=
  mkInstaller (db i) (events i) (subscriptions i) cs
              (dbMtx i) (eventsMtx i) (subscribeMtx i) (clustersMtx i).

(** No goroutine holds any of the four locks. *)
Definition unlocked (i : Installer) : Prop :=
  dbMtx i = free_mutex /\ eventsMtx i = free_mutex /\
  subscribeMtx i = free_mutex /\ clustersMtx i = free_mutex.

Inductive TaskState : Type := Provisioning | Ready | Failed.

(** What a call does to the world outside the Installer's own fields, in
    the order it does it. *)
Inductive Action : Type :=
| AValidate (c : AWSCluster)
| ABegin
| AExec (l : list stmt) (args : list val)
| ARollback
| ACommit
| AQuery (q : query) (key : string)
| ARegister (c : iface)
| ARemove (id : string)
| AEmit (e : Event)
| ARun (c : AWSCluster).

Record World : Type := mkWorld {
  inst : Installer;
  faults : Faults;
  hostenv : HostEnv;
  tasks : list (AWSCluster * TaskState);  (* background provisioning *)
  trace : list Action
}.

Definition upd_inst (f : Installer -> Installer) (w : World) : World :=
  mkWorld (f (inst w)) (faults w) (hostenv w) (tasks w) (trace w).

Definition log (a : Action) : M World unit :=
  fun w =>
    Ret tt (mkWorld (inst w) (faults w) (hostenv w) (tasks w)
                    (trace w ++ [a])).

Definition spawn (c : AWSCluster) : M World unit :=
  fun w =>
    Ret tt (mkWorld (inst w) (faults w) (hostenv w)
                    (tasks w ++ [(c, Provisioning)]) (trace w)).

Definition Lock (m : mtx) : M World unit :=
  fun w =>
    match mutex_Lock (get_mtx m (inst w)) with
    | Some mu => Ret tt (upd_inst (set_mtx m mu) w)
    | None => Block w
    end.

Definition Unlock (m : mtx) : M World unit :=
  fun w =>
    match mutex_Unlock (get_mtx m (inst w)) with
    | Some mu => Ret tt (upd_inst (set_mtx m mu) w)
    | None => Panic "sync: Unlock of unlocked RWMutex" w
    end.

Definition RLock (m : mtx) : M World unit :=
  fun w =>
    match mutex_RLock (get_mtx m (inst w)) with
    | Some mu => Ret tt (upd_inst (set_mtx m mu) w)
    | None => Block w
    end.

Definition RUnlock (m : mtx) : M World unit :=
  fun w =>
    match mutex_RUnlock (get_mtx m (inst w)) with
    | Some mu => Ret tt (upd_inst (set_mtx m mu) w)
    | None => Panic "sync: RUnlock of unlocked RWMutex" w
    end.

(** *** The storage handle [i.db] *)

(** An open transaction: its private copy of the tables. *)
Definition Tx : Type := DB.

Definition ql_Compile (l : list stmt) : M World (list stmt + error) :=
  fun w =>
    match f_compile (faults w) with
    | Some e => Ret (inr e) w
    | None => Ret (inl l) w
    end.

Definition db_Begin : M World (Tx + error) :=
  fun w =>
    match f_begin (faults w) with
    | Some e => Ret (inr e) w
    | None => (log ABegin ;; ret (inl (db (inst w)))) w
    end.

(** Statements run in order on the transaction's copy; the first one
    that fails stops the call, and what ran before it stays in the copy. *)
Fixpoint exec_list (f : nat -> option error) (args : list val) (k : nat)
         (l : list stmt) (d : DB) : DB * option error :=
  match l with
  | [] => (d, None)
  | s :: l' =>
      match f k with
      | Some e => (d, Some e)
      | None =>
          match exec_stmt args s d with
          | inl d' => exec_list f args (S k) l' d'
          | inr e => (d, Some e)
          end
      end
  end.

Definition tx_Exec (tx : Tx) (l : list stmt) (args : list val)
  : M World (Tx * option error) :=
  fun w =>
    (log (AExec l args) ;;
     ret (exec_list (f_exec (faults w)) args 0 l tx)) w.

Definition tx_Rollback (tx : Tx) : M World (option error) :=
  log ARollback ;; ret None.

Definition tx_Commit (tx : Tx) : M World (option error) :=
  fun w =>
    match f_commit (faults w) with
    | Some e => Ret (Some e) w
    | None => (modify (upd_inst (set_db tx)) ;; log ACommit ;; ret None) w
    end.

Definition db_QueryRow (q : query) (key : string)
  : M World (list val + error) :=
  fun w =>
    (log (AQuery q key) ;;
     ret (match f_query (faults w) (q_from q) with
          | Some e => inr e
          | None => run_query (db (inst w)) q key
          end)) w.

(** [Scan] into string and integer destinations. *)
Definition as_string (v : val) : option string :=
  match v with VStr s => Some s | _ => None end.

Definition as_int (v : val) : option Z :=
  match v with VInt n => Some n | _ => None end.

Fixpoint scan_strings (vs : list val) : option (list string) :=
  match vs with
  | [] => Some []
  | v :: vs' =>
      match as_string v, scan_strings vs' with
      | Some s, Some ss => Some (s :: ss)
      | _, _ => None
      end
  end.

Definition scan_Cluster (id : string) (vs : list val) : Cluster + error :=
  match scan_strings (firstn 3 vs), as_int (nth 3 vs VNull),
        scan_strings (skipn 4 vs) with
  | Some [cred; ty; st], Some n,
    Some [ck; cp; dlt; ca; ssh; vpc; sub; disc; dns] =>
      inl (mkCluster id cred ty st n ck cp dlt ca ssh vpc sub disc dns None)
  | _, _, _ => inr (ErrOther "sql: Scan error")
  end.

Definition scan_Domain (id : string) (vs : list val) : Domain + error :=
  match scan_strings vs with
  | Some [name; token] => inl (mkDomain id name token)
  | _ => inr (ErrOther "sql: Scan error")
  end.

Definition set_Domain (d : Domain) (c : Cluster) : Cluster :=
  mkCluster (ID c) (CredentialID c) (Type_ c) (State c) (NumInstances c)
            (ControllerKey c) (ControllerPin c) (DashboardLoginToken c)
            (CACert c) (SSHKeyName c) (VpcCidr c) (SubnetCidr c)
            (DiscoveryToken c) (DNSZoneID c) (Some d).

(** The three queries of installer.go, as written there. *)
Definition clusters_query : query :=
  mkQuery ["CredentialID"; "Type"; "State"; "NumInstances";
           "ControllerKey"; "ControllerPin"; "DashboardLoginToken";
           "CACert"; "SSHKeyName"; "VpcCidr"; "SubnetCidr";
           "DiscoveryToken"; "DNSZoneID"]
          T_clusters "ID".

Definition domains_query : query :=
  mkQuery ["Name"; "Token"] T_domains "ClusterID".

Definition credentials_query : query :=
  mkQuery ["Secret"] T_credentials "id".

Definition credentials_insert : stmt :=
  InsertValues T_credentials (Some ["ID"; "Secret"]) [1; 2].

(** *** What the other files of the package and the libraries provide

    installer.go calls methods and library functions whose bodies are not
    part of it. They are parameters of the development. *)
Record Externals : Type := mkExternals {
  (* AWSCluster.SetDefaultsAndValidate: the request with its defaults
     filled in, and the error it reports, if any; it may read the world
     it is called in *)
  SetDefaultsAndValidate : World -> AWSCluster -> AWSCluster * option error;
  (* ql.Marshal on a Cluster and on an AWSCluster *)
  ql_Marshal_Cluster : Cluster -> list val * option error;
  ql_Marshal_AWSCluster : AWSCluster -> list val * option error;
  (* reflect.Indirect(reflect.ValueOf(c)).FieldByName("ID").Interface().(string):
     None when the value has no string field of that name, and the
     expression panics *)
  reflect_ID : iface -> option string;
  (* aws.EnvCreds *)
  aws_EnvCreds : HostEnv -> option CredentialsProvider * option error
}.

Definition deliver (e : Event) (s : Subscription) : Subscription :=
  mkSubscription (delivered s ++ [e]).

(** Modelled from the spec: [SendEvent] is a method of the Installer
    declared outside installer.go. Emitting an event appends it to the
    in-memory log under the events lock and delivers it to every
    subscription registered at that time. *)
Definition SendEvent (e : Event) : M World unit :=
  Lock EventsMtx ;;
  modify (upd_inst (fun i => set_events (events i ++ [e]) i)) ;;
  log (AEmit e) ;;
  Unlock EventsMtx ;;
  modify (upd_inst (fun i =>
            set_subscriptions (map (deliver e) (subscriptions i)) i)).

(** Modelled from the spec: [Run], a method of [AWSCluster], is declared outside
    installer.go. It begins the asynchronous provisioning task of the
    cluster, fire-and-forget: the task is handed to the scheduler in
    state [Provisioning] and the call returns. *)
Definition Run (c : AWSCluster) : M World unit :=
  log (ARun c) ;; spawn c.

(** The [range] loops of [saveAWSCluster]: one placeholder [$idx+1+offset]
    and one argument per marshalled field. *)
Fixpoint placeholders_loop (offset idx : nat) (fs : list val)
         (vstr : list nat) (fields : list val) : list nat * list val :=
  match fs with
  | [] => (vstr, fields)
  | f :: fs' =>
      placeholders_loop offset (S idx) fs'
                        (vstr ++ [idx + 1 + offset]) (fields ++ [f])
  end.

(** The scan of the registry in [FindCluster]. *)
Fixpoint find_registered (id : string) (cs : list iface)
  : option Cluster :=
  match cs with
  | [] => None
  | IAWSCluster v :: cs' =>
      if String.eqb (ClusterID v) id then Some (cluster v)
      else find_registered id cs'
  | IOther _ :: cs' => find_registered id cs'
  end.

(** [%T] of an interface value. *)
Definition type_name (c : iface) : string :=
  match c with
  | IAWSCluster _ => "*installer.AWSCluster"
  | IOther T => T
  end.

Section InstallerMethods.

Variable ext : Externals.

Definition saveAWSCluster (c : AWSCluster) : M World (option error) :=
  Lock DbMtx ;;
  defer_ (Unlock DbMtx)
    (let (clusterFields, err) := ql_Marshal_Cluster ext (cluster c) in
     match err with
     | Some e => ret (Some e)
     | None =>
     let (awsFields, err) := ql_Marshal_AWSCluster ext c in
     match err with
     | Some e => ret (Some e)
     | None =>
     let (clustersVStr, fields) :=
       placeholders_loop 0 0 clusterFields [] [] in
     let offset := List.length clusterFields in
     let (awsVStr, fields) :=
       placeholders_loop offset 0 awsFields [] fields in
     r <- ql_Compile [InsertValues T_clusters None clustersVStr;
                      InsertValues T_aws_clusters None awsVStr] ;;
     match r with
     | inr e => ret (Some e)
     | inl list =>
     r <- db_Begin ;;
     match r with
     | inr e => ret (Some e)
     | inl tx =>
     ' (tx, err) <- tx_Exec tx list fields ;;
     match err with
     | Some e => tx_Rollback tx ;; ret (Some e)
     | None => tx_Commit tx
     end end end end end).

Definition launchAWSCluster (c : AWSCluster) : M World (option error) :=
  w0 <- get ;;
  log (AValidate c) ;;
  let (c, err) := SetDefaultsAndValidate ext w0 c in
  match err with
  | Some e => ret (Some e)
  | None =>
  err <- saveAWSCluster c ;;
  match err with
  | Some e => ret (Some e)
  | None =>
  Lock ClustersMtx ;;
  modify (upd_inst (fun i =>
            set_clusters (clusters i ++ [IAWSCluster c]) i)) ;;
  log (ARegister (IAWSCluster c)) ;;
  Unlock ClustersMtx ;;
  SendEvent (mkEvent "new_cluster" (Some (cluster c)) (ID (cluster c))) ;;
  Run c ;;
  ret None
  end end.

Definition LaunchCluster (c : iface) : M World (option error) :=
  match c with
  | IAWSCluster v => launchAWSCluster v
  | _ => ret (Some (ErrInvalidClusterType (type_name c)))
  end.

Definition SaveAWSCredentials (id secret : string)
  : M World (option error) :=
  Lock DbMtx ;;
  defer_ (Unlock DbMtx)
    (r <- db_Begin ;;
     match r with
     | inr e => ret (Some e)
     | inl tx =>
     ' (tx, err) <- tx_Exec tx [credentials_insert]
                            [VStr id; VStr secret] ;;
     match err with
     | Some e => tx_Rollback tx ;; ret (Some e)
     | None => tx_Commit tx
     end end).

Definition FindAWSCredentials (id : string)
  : M World (option CredentialsProvider * option error) :=
  if String.eqb id "aws_env" then
    w <- get ;; ret (aws_EnvCreds ext (hostenv w))
  else
    RLock DbMtx ;;
    defer_ (RUnlock DbMtx)
      (r <- db_QueryRow credentials_query id ;;
       match r with
       | inr e => ret (None, Some e)
       | inl vs =>
           match vs with
           | [VStr secret] => ret (Some (aws_Creds id secret ""), None)
           | _ => ret (None, Some (ErrOther "sql: Scan error"))
           end
       end).

Definition FindCluster (id : string)
  : M World (option Cluster * option error) :=
  RLock ClustersMtx ;;
  w <- get ;;
  match find_registered id (clusters (inst w)) with
  | Some c => RUnlock ClustersMtx ;; ret (Some c, None)
  | None =>
  RUnlock ClustersMtx ;;
  RLock DbMtx ;;
  defer_ (RUnlock DbMtx)
    (r <- db_QueryRow clusters_query id ;;
     match match r with inl vs => scan_Cluster id vs | inr e => inr e end
     with
     | inr e => ret (None, Some e)
     | inl c =>
     r <- db_QueryRow domains_query id ;;
     match match r with inl vs => scan_Domain id vs | inr e => inr e end
     with
     | inr e =>
         if error_eqb e ErrNoRows then ret (Some c, None)
         else ret (None, Some e)
     | inl domain => ret (Some (set_Domain domain c), None)
     end end)
  end.

(** The rebuilding loop of [DeleteCluster]; [None] when the reflective
    read of the [ID] field panics. *)
Fixpoint remove_loop (id : string) (cs acc : list iface)
  : option (list iface) :=
  match cs with
  | [] => Some acc
  | c :: cs' =>
      match reflect_ID ext c with
      | None => None
      | Some cID =>
          if negb (String.eqb cID id) then remove_loop id cs' (acc ++ [c])
          else remove_loop id cs' acc
      end
  end.

Definition DeleteCluster (id : string) : M World (option error) :=
  Lock DbMtx ;;
  ' (_, err) <- FindCluster id ;;
  Unlock DbMtx ;;
  match err with
  | Some e => ret (Some e)
  | None =>
  Lock ClustersMtx ;;
  w <- get ;;
  match remove_loop id (clusters (inst w)) [] with
  | None => panic "reflect: call of reflect.Value.Interface on zero Value"
  | Some cs =>
  modify (upd_inst (set_clusters cs)) ;;
  log (ARemove id) ;;
  Unlock ClustersMtx ;;
  SendEvent (mkEvent "cluster_deleted" None id) ;;
  ret None
  end end.

End InstallerMethods.

(** ** Derived notions used in the statements *)

(** The world [w] with tables [d] and with [new] added to its trace. *)
Definition with_db_trace (d : DB) (new : list Action) (w : World) : World :=
  mkWorld (set_db d (inst w)) (faults w) (hostenv w) (tasks w)
          (trace w ++ new).

(** Table [t] of [d] with row [r] added. *)
Definition append_row (t : table_name) (r : row) (d : DB) : DB :=
  set_table t (mkTable (schema (get_table t d))
                       (rows (get_table t d) ++ [r])) d.

(** The rows of the [clusters] table whose [ID] column is [id]. *)
Definition cluster_rows (id : string) (d : DB) : list row :=
  filter (fun r => match field (schema (clusters_tbl d)) r "ID" with
                   | Some v => val_eqb v (VStr id)
                   | None => false
                   end)
         (rows (clusters_tbl d)).

(** The steps of a launch that come after the durable write. *)
Definition after_persist (a : Action) : bool :=
  match a with
  | ARegister _ | AEmit _ | ARun _ => true
  | _ => false
  end.

Definition storage_read (a : Action) : bool :=
  match a with
  | AQuery _ _ => true
  | _ => false
  end.

(** The world after the validation step of a launch of [c]. *)
Definition validated (c : AWSCluster) (w : World) : World :=
  mkWorld (inst w) (faults w) (hostenv w) (tasks w)
          (trace w ++ [AValidate c]).

(** Every stored cluster row has an [ID], and none has the [ID] [id]. *)
Definition absent_from_storage (id : string) (d : DB) : Prop :=
  Forall (fun r => exists v,
                     field (schema (clusters_tbl d)) r "ID" = Some v /\
                     val_eqb v (VStr id) = false)
         (rows (clusters_tbl d)).


(** No stored domain row belongs to the cluster [id]. *)
Definition no_domain_row (id : string) (d : DB) : Prop :=
  Forall (fun r => exists v,
                     field (schema (domains_tbl d)) r "ClusterID" = Some v /\
                     val_eqb v (VStr id) = false)
         (rows (domains_tbl d)).

(** The statement list [saveAWSCluster] compiles for [cf] generic and
    [af] provider fields: the placeholders its two loops produce. *)
Definition save_statements (cf af : list val) : list stmt :=
  [InsertValues T_clusters None
     (map (fun i => i + 1 + 0) (seq 0 (List.length cf)));
   InsertValues T_aws_clusters None
     (map (fun i => i + 1 + List.length cf) (seq 0 (List.length af)))].

(** The ways a call of [saveAWSCluster] can end, one constructor for each
    [return] of the function: the error it returns, the tables it leaves
    and the storage steps it took. *)
Inductive save_outcome (ext : Externals) (c : AWSCluster)
          (f : Faults) (d : DB)
  : option error -> DB -> list Action -> Prop :=
| SaveMarshalCluster cf e :
    ql_Marshal_Cluster ext (cluster c) = (cf, Some e) ->
    save_outcome ext c f d (Some e) d []
| SaveMarshalAWS cf af e :
    ql_Marshal_Cluster ext (cluster c) = (cf, None) ->
    ql_Marshal_AWSCluster ext c = (af, Some e) ->
    save_outcome ext c f d (Some e) d []
| SaveCompile cf af e :
    ql_Marshal_Cluster ext (cluster c) = (cf, None) ->
    ql_Marshal_AWSCluster ext c = (af, None) ->
    f_compile f = Some e ->
    save_outcome ext c f d (Some e) d []
| SaveBegin cf af e :
    ql_Marshal_Cluster ext (cluster c) = (cf, None) ->
    ql_Marshal_AWSCluster ext c = (af, None) ->
    f_compile f = None ->
    f_begin f = Some e ->
    save_outcome ext c f d (Some e) d []
| SaveExec cf af tx e :
    ql_Marshal_Cluster ext (cluster c) = (cf, None) ->
    ql_Marshal_AWSCluster ext c = (af, None) ->
    f_compile f = None ->
    f_begin f = None ->
    exec_list (f_exec f) (cf ++ af) 0 (save_statements cf af) d
      = (tx, Some e) ->
    save_outcome ext c f d (Some e) d
      [ABegin; AExec (save_statements cf af) (cf ++ af); ARollback]
| SaveCommitFails cf af tx e :
    ql_Marshal_Cluster ext (cluster c) = (cf, None) ->
    ql_Marshal_AWSCluster ext c = (af, None) ->
    f_compile f = None ->
    f_begin f = None ->
    exec_list (f_exec f) (cf ++ af) 0 (save_statements cf af) d
      = (tx, None) ->
    f_commit f = Some e ->
    save_outcome ext c f d (Some e) d
      [ABegin; AExec (save_statements cf af) (cf ++ af)]
| SaveCommitted cf af tx :
    ql_Marshal_Cluster ext (cluster c) = (cf, None) ->
    ql_Marshal_AWSCluster ext c = (af, None) ->
    f_compile f = None ->
    f_begin f = None ->
    exec_list (f_exec f) (cf ++ af) 0 (save_statements cf af) d
      = (tx, None) ->
    f_commit f = None ->
    save_outcome ext c f d None tx
      [ABegin; AExec (save_statements cf af) (cf ++ af); ACommit].

(** An [Exec] of the two inserts stops at the second one with error [e]:
    the transaction's copy holds the generic row and nothing more. *)
Definition second_insert_fails (f : Faults) (cf af : list val) (d : DB)
           (e : error) : Prop :=
  exec_list (f_exec f) (cf ++ af) 0 (save_statements cf af) d
  = (append_row T_clusters cf d, Some e).

(** ** A sample installation

    Concrete values on which the statements below are exercised. *)

(** Modelled from the spec: the tables are created by [openDB], declared
    outside installer.go. The logical schema is
    [clusters(ID, CredentialID, Type, State, NumInstances, ControllerKey,
    ControllerPin, DashboardLoginToken, CACert, SSHKeyName, VpcCidr,
    SubnetCidr, DiscoveryToken, DNSZoneID)], a provider table
    [aws_clusters] (here with the one column [ClusterID]),
    [domains(ClusterID, Name, Token)] and [credentials(ID, Secret)]. *)
Definition sample_db : DB :=
  mkDB (mkTable ["ID"; "CredentialID"; "Type"; "State"; "NumInstances";
                 "ControllerKey"; "ControllerPin"; "DashboardLoginToken";
                 "CACert"; "SSHKeyName"; "VpcCidr"; "SubnetCidr";
                 "DiscoveryToken"; "DNSZoneID"] [])
       (mkTable ["ClusterID"] [])
       (mkTable ["ClusterID"; "Name"; "Token"] [])
       (mkTable ["ID"; "Secret"] []).

Definition sample_installer : Installer :=
  mkInstaller sample_db [] [] []
              free_mutex free_mutex free_mutex free_mutex.

Definition sample_world : World :=
  mkWorld sample_installer no_faults (fun _ => "") [] [].

(** The same world with a storage whose second statement of an [Exec]
    is rejected. *)
Definition reject_second : Faults :=
  mkFaults None None
           (fun k => match k with
                     | 1 => Some (ErrOther "injected failure")
                     | _ => None
                     end)
           None (fun _ => None).

Definition faulty_world : World :=
  mkWorld sample_installer reject_second (fun _ => "") [] [].

Definition sample_cluster (id cred : string) : Cluster :=
  mkCluster id cred "aws" "starting" 1 "" "" "" "" "" "" "" "" "" None.

Definition sample_request (id cred : string) : AWSCluster :=
  mkAWSCluster id (sample_cluster id cred).

(** Sample collaborators. Validation rejects a request that has no
    credential id; marshalling lists the columns of the sample tables;
    the identity read by reflection is the cluster id; environment
    credentials come from the access-key variables. *)
Definition sample_ext : Externals :=
  mkExternals
    (fun _ c =>
       if String.eqb (CredentialID (cluster c)) ""
       then (c, Some (ErrOther "No credential id"))
       else (c, None))
    (fun c =>
       ([VStr (ID c); VStr (CredentialID c); VStr (Type_ c); VStr (State c);
         VInt (NumInstances c); VStr (ControllerKey c);
         VStr (ControllerPin c); VStr (DashboardLoginToken c);
         VStr (CACert c); VStr (SSHKeyName c); VStr (VpcCidr c);
         VStr (SubnetCidr c); VStr (DiscoveryToken c); VStr (DNSZoneID c)],
        None))
    (fun c => ([VStr (ClusterID c)], None))
    (fun c => match c with
              | IAWSCluster v => Some (ClusterID v)
              | IOther _ => None
              end)
    (fun env =>
       if String.eqb (env "AWS_ACCESS_KEY_ID") ""
       then (None, Some (ErrOther "AWS_ACCESS_KEY_ID not found"))
       else (Some (aws_Creds (env "AWS_ACCESS_KEY_ID")
                             (env "AWS_SECRET_ACCESS_KEY")
                             (env "AWS_SESSION_TOKEN")), None)).

(** The sample world with two clusters in the registry. *)
Definition registered_world : World :=
  mkWorld (set_clusters [IAWSCluster (sample_request "c1" "key1");
                         IAWSCluster (sample_request "c2" "key1")]
                        sample_installer)
          no_faults (fun _ => "") [] [].

(** The sample world with one stored cluster and an empty registry. *)
Definition stored_world : World :=
  mkWorld (set_db (append_row T_clusters
                     [VStr "c1"; VStr "key1"; VStr "aws"; VStr "running";
                      VInt 3; VStr "ck"; VStr "pin"; VStr "tok"; VStr "ca";
                      VStr "ssh"; VStr "10.0.0.0/16"; VStr "10.0.0.0/21";
                      VStr "disc"; VStr "zone"]
                     sample_db)
                  sample_installer)
          no_faults (fun _ => "") [] [].

(** The sample collaborators for a cluster type that has no [ID] field:
    the reflective read fails on every entry. *)
Definition no_ID_ext : Externals :=
  mkExternals (SetDefaultsAndValidate sample_ext)
              (ql_Marshal_Cluster sample_ext)
              (ql_Marshal_AWSCluster sample_ext)
              (fun _ => None)
              (aws_EnvCreds sample_ext).


(** The sample world with a [credentials] table whose key column is
    spelled [id], as the query of [FindAWSCredentials] spells it, and
    with two stored pairs. *)
Definition lowercase_id_world : World :=
  mkWorld (set_db (set_table T_credentials
                     (mkTable ["id"; "Secret"]
                              [[VStr "AKIAOTHER"; VStr "0ther"];
                               [VStr "AKIAEXAMPLE"; VStr "s3cr3t"]])
                     sample_db)
                  sample_installer)
          no_faults (fun _ => "") [] [].

(** ** Tactics

    [step] runs a call as far as the state decides it. *)
Ltac step :=
  unfold bind, ret, defer_, log, modify, get, spawn, panic,
         Lock, Unlock, RLock, RUnlock,
         ql_Compile, db_Begin, tx_Exec, tx_Rollback, tx_Commit, db_QueryRow,
         with_db_trace, upd_inst, set_mtx, get_mtx, set_db, set_clusters,
         set_events, set_subscriptions,
         mutex_Lock, mutex_Unlock, mutex_RLock, mutex_RUnlock, free_mutex;
  cbn -[exec_list run_query append_row save_statements].

Ltac step_in H :=
  unfold bind, ret, defer_, log, modify, get, spawn, panic,
         Lock, Unlock, RLock, RUnlock,
         ql_Compile, db_Begin, tx_Exec, tx_Rollback, tx_Commit, db_QueryRow,
         with_db_trace, upd_inst, set_mtx, get_mtx, set_db, set_clusters,
         set_events, set_subscriptions,
         mutex_Lock, mutex_Unlock, mutex_RLock, mutex_RUnlock, free_mutex
    in H;
  cbn -[exec_list run_query append_row save_statements] in H.

(** * Properties *)

(** ** pkg/stream *)

Lemma New_starts_open_aux (h : Stream.Heap) :
  Stream.New h
    = Ret (Stream.mkBasic (List.length h) None (Stream.ABool false) false)
          (h ++ [Stream.ChanOpen]) /\
  nth_error (h ++ [Stream.ChanOpen]) (List.length h)
    = Some Stream.ChanOpen.
Proof.
  split; [reflexivity|].
  rewrite nth_error_app2 by lia. now rewrite Nat.sub_diag.
Qed.

(** C10. A stream made by [New] is open: [IsClosed] answers [false] without
    touching the heap, [Err] is nil, and the stop channel is a fresh
    channel that is not closed. *)
Theorem New_starts_open (h : Stream.Heap) :
  exists b h',
    Stream.New h = Ret b h' /\
    Stream.IsClosed b h' = Ret false h' /\
    Stream.Err b = None /\
    nth_error h (Stream.StopCh b) = None /\
    nth_error h' (Stream.StopCh b) = Some Stream.ChanOpen /\
    Stream.chan_closed h' (Stream.StopCh b) = false.
Proof.
  destruct (New_starts_open_aux h) as (Hrun & Hnew).
  eexists _, _. split; [exact Hrun|].
  repeat split; try reflexivity.
  - apply nth_error_None. simpl. lia.
  - exact Hnew.
  - unfold Stream.chan_closed. simpl. now rewrite Hnew.
Qed.

(** [Close] on a stream made by [New] returns nil and closes the stop
    channel. The receiver is a copy, so the stream the caller holds still
    answers [false] to [IsClosed]. *)
Lemma Close_closes_StopCh (h : Stream.Heap) :
  exists b h' h'',
    Stream.New h = Ret b h' /\
    Stream.Close b h' = Ret None h'' /\
    Stream.chan_closed h'' (Stream.StopCh b) = true /\
    Stream.IsClosed b h'' = Ret false h''.
Proof.
  destruct (New_starts_open_aux h) as (Hnew & Hnth).
  eexists _, _, _. split; [exact Hnew|].
  unfold Stream.Close, Stream.close_chan, bind, ret. simpl. rewrite Hnth.
  split; [reflexivity|]. split; [|reflexivity].
  unfold Stream.chan_closed.
  rewrite firstn_app, Nat.sub_diag, firstn_all. simpl. rewrite app_nil_r.
  rewrite nth_error_app2 by lia. now rewrite Nat.sub_diag.
Qed.

(** ** installer: calls that leave the world alone *)

(** C8. [FindAWSCredentials "aws_env"] answers with what [aws.EnvCreds]
    makes of the host environment and leaves the world as it was: no
    lock is taken and the trace gets no storage read. Whatever tables
    the storage holds, the answer is the same. *)
Theorem FindAWSCredentials_aws_env (ext : Externals) (w : World) :
  FindAWSCredentials ext "aws_env" w
    = Ret (aws_EnvCreds ext (hostenv w)) w /\
  forall d : DB,
    FindAWSCredentials ext "aws_env" (upd_inst (set_db d) w)
      = Ret (aws_EnvCreds ext (hostenv w)) (upd_inst (set_db d) w).
Proof.
  split.
  - reflexivity.
  - intro d. reflexivity.
Qed.

(** C6. A launch request whose dynamic type is not the AWS cluster is
    refused with the "Invalid cluster type" error that names its type,
    and the world is left as it was: the tables, the registry, the event
    log and the trace are unchanged, so nothing was persisted, registered
    or emitted. *)
Theorem LaunchCluster_unsupported
        (ext : Externals) (c : iface) (w : World)
        (Hother : forall v, c <> IAWSCluster v) :
  exists w',
    LaunchCluster ext c w
      = Ret (Some (ErrInvalidClusterType (type_name c))) w' /\
    w' = w /\
    db (inst w') = db (inst w) /\
    clusters (inst w') = clusters (inst w) /\
    events (inst w') = events (inst w) /\
    trace w' = trace w.
Proof.
  exists w. destruct c as [v|T].
  - exfalso. now apply (Hother v).
  - repeat split; reflexivity.
Qed.

Lemma LaunchCluster_unsupported_witness :
  LaunchCluster sample_ext (IOther "*installer.AzureCluster") sample_world
  = Ret (Some (ErrInvalidClusterType "*installer.AzureCluster")) sample_world.
Proof.
  assert (Hother : forall v,
             IOther "*installer.AzureCluster" <> IAWSCluster v)
    by (intros v H; discriminate H).
  destruct (@LaunchCluster_unsupported sample_ext
              (IOther "*installer.AzureCluster") sample_world Hother)
    as (w' & Hrun & Hw & _).
  rewrite Hw in Hrun. exact Hrun.
Defined.

(** C4. When validation of an AWS launch request reports an error,
    [LaunchCluster] returns that error; the Installer (tables, registry,
    event log, locks) and the background tasks are what they were, and
    the trace has gained the validation step alone. *)
Theorem LaunchCluster_invalid
        (ext : Externals) (c c' : AWSCluster) (e : error) (w : World)
        (Hval : SetDefaultsAndValidate ext w c = (c', Some e)) :
  exists w',
    LaunchCluster ext (IAWSCluster c) w = Ret (Some e) w' /\
    inst w' = inst w /\
    db (inst w') = db (inst w) /\
    clusters (inst w') = clusters (inst w) /\
    List.length (clusters (inst w')) = List.length (clusters (inst w)) /\
    tasks w' = tasks w /\
    trace w' = trace w ++ [AValidate c].
Proof.
  eexists. split.
  - unfold LaunchCluster, launchAWSCluster, bind, get, log. rewrite Hval.
    reflexivity.
  - simpl. repeat split; reflexivity.
Qed.

Lemma LaunchCluster_invalid_witness :
  exists w',
    LaunchCluster sample_ext (IAWSCluster (sample_request "c1" ""))
                  sample_world
      = Ret (Some (ErrOther "No credential id")) w' /\
    List.length (clusters (inst w')) = 0.
Proof.
  destruct (@LaunchCluster_invalid sample_ext (sample_request "c1" "")
              (sample_request "c1" "") (ErrOther "No credential id")
              sample_world eq_refl)
    as (w' & Hrun & _ & _ & _ & Hlen & _).
  exists w'. split; [exact Hrun | exact Hlen].
Defined.

(** ** installer: the storage gateway *)

Lemma placeholders_loop_spec (offset : nat) (fs : list val) :
  forall (idx : nat) (vstr : list nat) (fields : list val),
    placeholders_loop offset idx fs vstr fields
    = (vstr ++ map (fun i => i + 1 + offset) (seq idx (List.length fs)),
       fields ++ fs).
Proof.
  induction fs as [|f fs IH]; intros idx vstr fields; simpl.
  - now rewrite !app_nil_r.
  - rewrite IH. now rewrite <- !app_assoc.
Qed.

(** The placeholders [$k+1+offset], for k below [n], select the [n]
    arguments that follow the first [offset + k0] ones. *)
Lemma bind_params_window (args : list val) (offset : nat) :
  forall (n k0 : nat),
    offset + k0 + n <= List.length args ->
    bind_params args (map (fun i => i + 1 + offset) (seq k0 n))
    = Some (firstn n (skipn (offset + k0) args)).
Proof.
  induction n as [|n IH]; intros k0 Hlen; simpl.
  - reflexivity.
  - rewrite IH by lia.
    replace (k0 + 1 + offset) with (S (offset + k0)) by lia. simpl.
    destruct (nth_error args (offset + k0)) as [v|] eqn:Hnth.
    + f_equal.
      replace (offset + S k0) with (S (offset + k0)) by lia.
      clear IH. revert Hnth. generalize (offset + k0) as m.
      clear Hlen. induction args as [|a args IHa]; intros [|m] H;
        simpl in *; try discriminate.
      * now inversion H.
      * now apply IHa.
    + apply nth_error_None in Hnth. lia.
Qed.

Lemma bind_params_left (cf af : list val) :
  bind_params (cf ++ af)
              (map (fun i => i + 1 + 0) (seq 0 (List.length cf)))
  = Some cf.
Proof.
  rewrite bind_params_window by (rewrite length_app; lia).
  simpl. now rewrite firstn_app, Nat.sub_diag, firstn_all, app_nil_r.
Qed.

Lemma bind_params_right (cf af : list val) :
  bind_params (cf ++ af)
              (map (fun i => i + 1 + List.length cf)
                   (seq 0 (List.length af)))
  = Some af.
Proof.
  rewrite bind_params_window by (rewrite length_app; lia).
  rewrite Nat.add_0_r, skipn_app, skipn_all, Nat.sub_diag. simpl.
  apply f_equal, firstn_all.
Qed.

(** [saveAWSCluster] returns when the storage lock is free, hands the
    lock back, and ends in one of the ways of [save_outcome]. *)
Lemma saveAWSCluster_outcome (ext : Externals) (c : AWSCluster) (w : World) :
  dbMtx (inst w) = free_mutex ->
  exists err d' new,
    saveAWSCluster ext c w = Ret err (with_db_trace d' new w) /\
    save_outcome ext c (faults w) (db (inst w)) err d' new.
Proof.
  intros Hfree.
  destruct w as [i f h t tr]. destruct i as [d es ss cs m1 m2 m3 m4].
  simpl in Hfree. subst m1.
  unfold saveAWSCluster.
  destruct (ql_Marshal_Cluster ext (cluster c)) as [cf [e|]] eqn:Hmc.
  { exists (Some e), d, []. step. rewrite app_nil_r.
    split; [reflexivity | econstructor; eassumption]. }
  destruct (ql_Marshal_AWSCluster ext c) as [af [e|]] eqn:Hma.
  { exists (Some e), d, []. step. rewrite app_nil_r.
    split; [reflexivity | eapply SaveMarshalAWS; eassumption]. }
  rewrite !placeholders_loop_spec. cbn [app].
  fold (save_statements cf af). step.
  destruct (f_compile f) as [e|] eqn:Hc; step.
  { exists (Some e), d, []. rewrite app_nil_r.
    split; [reflexivity | eapply SaveCompile; eassumption]. }
  destruct (f_begin f) as [e|] eqn:Hb; step.
  { exists (Some e), d, []. rewrite app_nil_r.
    split; [reflexivity | eapply SaveBegin; eassumption]. }
  destruct (exec_list _ _ _ _ _) as [tx [e|]] eqn:Hexec; step.
  { eexists (Some e), d, _. rewrite <- !app_assoc. cbn [app].
    split; [reflexivity | eapply SaveExec; eassumption]. }
  destruct (f_commit f) as [e|] eqn:Hcm; step.
  { eexists (Some e), d, _. rewrite <- !app_assoc. cbn [app].
    split; [reflexivity | eapply SaveCommitFails; eassumption]. }
  eexists None, tx, _. rewrite <- !app_assoc. cbn [app].
  split; [reflexivity | eapply SaveCommitted; eassumption].
Qed.

(** A call of [saveAWSCluster] that returns found the storage lock free. *)
Lemma saveAWSCluster_returns_free (ext : Externals) (c : AWSCluster)
      (w w' : World) (err : option error) :
  saveAWSCluster ext c w = Ret err w' -> dbMtx (inst w) = free_mutex.
Proof.
  intros H. destruct w as [i f h t tr].
  destruct i as [d es ss cs m1 m2 m3 m4].
  destruct m1 as [[|] [|n1]]; try reflexivity; exfalso;
    unfold saveAWSCluster in H; step_in H; discriminate.
Qed.

(** What the [Exec] of the two inserts does: each insert needs the storage
    to accept the statement and the row to fit the table. *)
Lemma exec_save_statements (f : nat -> option error) (cf af : list val)
      (d : DB) :
  exec_list f (cf ++ af) 0 (save_statements cf af) d =
  match f 0 with
  | Some e => (d, Some e)
  | None =>
      if Nat.eqb (List.length cf) (List.length (schema (clusters_tbl d)))
      then
        match f 1 with
        | Some e => (append_row T_clusters cf d, Some e)
        | None =>
            if Nat.eqb (List.length af)
                       (List.length (schema (aws_clusters_tbl d)))
            then (append_row T_aws_clusters af (append_row T_clusters cf d),
                  None)
            else (append_row T_clusters cf d,
                  Some (ErrOther "INSERT INTO: wrong number of values"))
        end
      else (d, Some (ErrOther "INSERT INTO: wrong number of values"))
  end.
Proof.
  unfold save_statements. cbn [exec_list exec_stmt].
  destruct (f 0) as [e|]; [reflexivity|].
  rewrite bind_params_left. cbn [insert_row get_table].
  destruct (Nat.eqb (List.length cf) _); [|reflexivity].
  destruct (f 1) as [e|]; [reflexivity|].
  rewrite bind_params_right. cbn [insert_row get_table set_table].
  cbn [aws_clusters_tbl schema].
  destruct (Nat.eqb (List.length af) _); reflexivity.
Qed.

Lemma save_outcome_committed (ext : Externals) (c : AWSCluster)
      (f : Faults) (d d' : DB) (new : list Action) :
  save_outcome ext c f d None d' new ->
  exists cf af,
    ql_Marshal_Cluster ext (cluster c) = (cf, None) /\
    ql_Marshal_AWSCluster ext c = (af, None) /\
    d' = append_row T_aws_clusters af (append_row T_clusters cf d) /\
    new = [ABegin; AExec (save_statements cf af) (cf ++ af); ACommit].
Proof.
  intros H. inversion H as [| | | | | |cf af tx Hmc Hma _ _ Hexec _]; subst.
  exists cf, af. repeat split; try assumption.
  rewrite exec_save_statements in Hexec.
  destruct (f_exec f 0); [discriminate|].
  destruct (Nat.eqb (List.length cf) _); [|discriminate].
  destruct (f_exec f 1); [discriminate|].
  destruct (Nat.eqb (List.length af) _); [|discriminate].
  now inversion Hexec.
Qed.

Lemma save_outcome_error (ext : Externals) (c : AWSCluster)
      (f : Faults) (d d' : DB) (new : list Action) (e : error) :
  save_outcome ext c f d (Some e) d' new ->
  d' = d /\ forallb (fun a => negb (after_persist a)) new = true /\
  forallb (fun a => negb (storage_read a)) new = true.
Proof.
  intros H. inversion H; subst; repeat split; reflexivity.
Qed.

Lemma cluster_rows_append_other (id : string) (r : row) (d : DB) :
  cluster_rows id (append_row T_aws_clusters r d) = cluster_rows id d.
Proof. reflexivity. Qed.

(** C3. [saveAWSCluster] issues the insert into [clusters] and the insert
    into [aws_clusters] in one transaction. When it returns nil both rows
    are in the tables; when it returns an error the tables are what they
    were. In particular, when the second insert fails after the first
    went through, the call rolls back and returns that error, and the
    [clusters] table holds the rows for the cluster id that it held
    before: none, if there was none. *)
Theorem saveAWSCluster_atomic
        (ext : Externals) (c : AWSCluster) (w : World)
        (Hfree : dbMtx (inst w) = free_mutex) :
  exists err d' new,
    saveAWSCluster ext c w = Ret err (with_db_trace d' new w) /\
    match err with
    | None =>
        exists cf af,
          ql_Marshal_Cluster ext (cluster c) = (cf, None) /\
          ql_Marshal_AWSCluster ext c = (af, None) /\
          d' = append_row T_aws_clusters af
                 (append_row T_clusters cf (db (inst w))) /\
          new = [ABegin; AExec (save_statements cf af) (cf ++ af); ACommit]
    | Some _ => d' = db (inst w)
    end /\
    forall cf af e,
      ql_Marshal_Cluster ext (cluster c) = (cf, None) ->
      ql_Marshal_AWSCluster ext c = (af, None) ->
      f_compile (faults w) = None ->
      f_begin (faults w) = None ->
      second_insert_fails (faults w) cf af (db (inst w)) e ->
      err = Some e /\
      new = [ABegin; AExec (save_statements cf af) (cf ++ af); ARollback] /\
      cluster_rows (ID (cluster c)) d'
        = cluster_rows (ID (cluster c)) (db (inst w)) /\
      (cluster_rows (ID (cluster c)) (db (inst w)) = [] ->
       cluster_rows (ID (cluster c)) d' = []).
Proof.
  destruct (saveAWSCluster_outcome ext c w Hfree)
    as (err & d' & new & Hrun & Hout).
  exists err, d', new. split; [exact Hrun|]. split.
  - destruct err as [e|].
    + now apply save_outcome_error in Hout.
    + now apply save_outcome_committed in Hout.
  - intros cf af e Hmc Hma Hc Hb Hsecond. unfold second_insert_fails in Hsecond.
    inversion Hout; subst; try congruence.
    assert (cf0 = cf) by congruence. assert (af0 = af) by congruence.
    subst. assert (e0 = e) by congruence. subst.
    repeat split; auto.
Qed.

Lemma saveAWSCluster_atomic_witness :
  exists w',
    saveAWSCluster sample_ext (sample_request "c1" "key1") faulty_world
      = Ret (Some (ErrOther "injected failure")) w' /\
    cluster_rows "c1" (db (inst w')) = [].
Proof.
  destruct (@saveAWSCluster_atomic sample_ext (sample_request "c1" "key1")
              faulty_world eq_refl)
    as (err & d' & new & Hrun & _ & Hsecond).
  destruct (Hsecond _ _ (ErrOther "injected failure")
              eq_refl eq_refl eq_refl eq_refl eq_refl)
    as (Herr & _ & _ & Hzero).
  exists (with_db_trace d' new faulty_world). split.
  - rewrite <- Herr. exact Hrun.
  - apply Hzero. reflexivity.
Defined.

(** ** installer: launching a cluster *)

(** C9. When validation passes and [saveAWSCluster] returns an error,
    [launchAWSCluster] returns that error. The Installer is what it was
    before the call: tables, registry, event log and locks. No task was
    started, and after the validation step the trace shows storage steps
    only: nothing was registered, emitted or run. *)
Theorem launchAWSCluster_save_fails
        (ext : Externals) (c c' : AWSCluster) (e : error) (w w1 : World)
        (Hval : SetDefaultsAndValidate ext w c = (c', None))
        (Hsave : saveAWSCluster ext c' (validated c w) = Ret (Some e) w1) :
  launchAWSCluster ext c w = Ret (Some e) w1 /\
  inst w1 = inst w /\
  clusters (inst w1) = clusters (inst w) /\
  events (inst w1) = events (inst w) /\
  tasks w1 = tasks w /\
  exists new,
    trace w1 = trace w ++ AValidate c :: new /\
    forallb (fun a => negb (after_persist a)) new = true.
Proof.
  assert (Hrun : launchAWSCluster ext c w = Ret (Some e) w1).
  { unfold launchAWSCluster, bind at 1, get. unfold bind at 1, log.
    rewrite Hval. unfold bind at 1. fold (validated c w).
    now rewrite Hsave. }
  destruct (@saveAWSCluster_outcome ext c' (validated c w)
              (saveAWSCluster_returns_free _ _ _ Hsave))
    as (err & d' & new & Hrun' & Hout).
  rewrite Hsave in Hrun'. inversion Hrun'; subst err w1. clear Hrun'.
  apply save_outcome_error in Hout. destruct Hout as (-> & Hquiet & _).
  assert (Hinst : inst (with_db_trace (db (inst (validated c w))) new
                                      (validated c w)) = inst w).
  { destruct w as [i f h t tr]. now destruct i. }
  split; [exact Hrun|]. split; [exact Hinst|].
  split; [now rewrite Hinst|]. split; [now rewrite Hinst|].
  split; [reflexivity|].
  exists new. split; [|exact Hquiet].
  simpl. now rewrite <- app_assoc.
Qed.

Lemma launchAWSCluster_save_fails_witness :
  exists w1,
    launchAWSCluster sample_ext (sample_request "c1" "key1") faulty_world
      = Ret (Some (ErrOther "injected failure")) w1 /\
    inst w1 = inst faulty_world /\
    tasks w1 = [].
Proof.
  eexists.
  destruct (@launchAWSCluster_save_fails sample_ext
              (sample_request "c1" "key1") (sample_request "c1" "key1")
              (ErrOther "injected failure") faulty_world _
              eq_refl eq_refl)
    as (Hrun & Hinst & _ & _ & Htasks & _).
  split; [exact Hrun|]. split; [exact Hinst | exact Htasks].
Defined.

(** C2. From a state in which no lock is held, a launch of an AWS request
    that passes validation returns. When it returns nil its steps were,
    in this order and with nothing in between: validation, the
    transaction with its commit, the append to the registry, the emission
    of [new_cluster], the start of the provisioning task. At the return
    the task is still in state [Provisioning]. When it returns an error
    none of the steps that follow the durable write was taken. *)
Theorem LaunchCluster_order
        (ext : Externals) (c c' : AWSCluster) (w : World)
        (Hfree : unlocked (inst w))
        (Hval : SetDefaultsAndValidate ext w c = (c', None)) :
  exists err w',
    LaunchCluster ext (IAWSCluster c) w = Ret err w' /\
    match err with
    | None =>
        exists cf af,
          let ev := mkEvent "new_cluster" (Some (cluster c'))
                            (ID (cluster c')) in
          trace w' = trace w ++
                     [AValidate c;
                      ABegin; AExec (save_statements cf af) (cf ++ af);
                      ACommit;
                      ARegister (IAWSCluster c');
                      AEmit ev;
                      ARun c'] /\
          db (inst w') = append_row T_aws_clusters af
                           (append_row T_clusters cf (db (inst w))) /\
          clusters (inst w') = clusters (inst w) ++ [IAWSCluster c'] /\
          events (inst w') = events (inst w) ++ [ev] /\
          tasks w' = tasks w ++ [(c', Provisioning)] /\
          unlocked (inst w')
    | Some _ =>
        exists new,
          trace w' = trace w ++ AValidate c :: new /\
          forallb (fun a => negb (after_persist a)) new = true /\
          tasks w' = tasks w
    end.
Proof.
  assert (Hdb : dbMtx (inst (validated c w)) = free_mutex)
    by (destruct Hfree as (H & _); exact H).
  destruct (@saveAWSCluster_outcome ext c' (validated c w) Hdb)
    as (err & d' & new & Hrun & Hout).
  unfold LaunchCluster, launchAWSCluster, bind at 1, get.
  unfold bind at 1, log. rewrite Hval.
  unfold bind at 1. fold (validated c w). rewrite Hrun.
  destruct err as [e|].
  - exists (Some e). eexists. split; [reflexivity|].
    apply save_outcome_error in Hout. destruct Hout as (_ & Hquiet & _).
    exists new. simpl. rewrite <- app_assoc. auto.
  - apply save_outcome_committed in Hout.
    destruct Hout as (cf & af & _ & _ & -> & ->).
    destruct w as [i f h t tr]. destruct i as [d es ss cs m1 m2 m3 m4].
    destruct Hfree as (H1 & H2 & H3 & H4). simpl in H1, H2, H3, H4. subst.
    exists None. eexists. split; [unfold SendEvent, Run, validated; step;
                                  reflexivity|].
    exists cf, af. unfold unlocked. simpl.
    rewrite <- !app_assoc. simpl. repeat split; reflexivity.
Qed.

Lemma LaunchCluster_order_witness :
  exists w',
    LaunchCluster sample_ext (IAWSCluster (sample_request "c1" "key1"))
                  sample_world = Ret None w' /\
    List.length (trace w') = 7 /\
    tasks w' = [(sample_request "c1" "key1", Provisioning)].
Proof.
  destruct (@LaunchCluster_order sample_ext (sample_request "c1" "key1")
              (sample_request "c1" "key1") sample_world
              (conj eq_refl (conj eq_refl (conj eq_refl eq_refl))) eq_refl)
    as (err & w' & Hrun & Hpost).
  assert (Hc : exists w0,
             LaunchCluster sample_ext
               (IAWSCluster (sample_request "c1" "key1")) sample_world
             = Ret None w0)
    by (eexists; vm_compute; reflexivity).
  destruct Hc as (w0 & Hc). rewrite Hrun in Hc.
  assert (Herr : err = None) by now inversion Hc.
  subst err. destruct Hpost as (cf & af & Htr & _ & _ & _ & Htasks & _).
  exists w'. split; [exact Hrun|]. split; [|exact Htasks].
  rewrite Htr. reflexivity.
Defined.

(** ** installer: finding and deleting a cluster *)

Lemma scan_rows_absent (id : string) (d : DB) :
  absent_from_storage id d ->
  scan_rows (schema (clusters_tbl d)) "ID" (VStr id) (rows (clusters_tbl d))
  = inl None.
Proof.
  unfold absent_from_storage.
  generalize (schema (clusters_tbl d)) as sch.
  induction (rows (clusters_tbl d)) as [|r rs IH]; intros sch H.
  - reflexivity.
  - inversion H as [|? ? (v & Hf & Hne) Hrest]; subst.
    cbn [scan_rows]. rewrite Hf, Hne. now apply IH.
Qed.

(** What [FindCluster] returns for an id that is neither registered nor
    stored, on a working storage: a nil cluster and [sql.ErrNoRows]. *)
Lemma FindCluster_absent (id : string) (w : World) :
  unlocked (inst w) ->
  find_registered id (clusters (inst w)) = None ->
  absent_from_storage id (db (inst w)) ->
  f_query (faults w) T_clusters = None ->
  FindCluster id w
  = Ret (None, Some ErrNoRows)
        (with_db_trace (db (inst w)) [AQuery clusters_query id] w).
Proof.
  intros Hfree Hreg Hsto Hq.
  destruct w as [i f h t tr]. destruct i as [d es ss cs m1 m2 m3 m4].
  destruct Hfree as (H1 & H2 & H3 & H4). simpl in *. subst.
  unfold FindCluster. step. rewrite Hreg. step. rewrite Hq.
  unfold run_query. cbn [q_from q_where clusters_query get_table].
  now rewrite (scan_rows_absent Hsto).
Qed.

(** C1, as the code has it. For an id that is in neither the registry
    nor the [clusters] table, [FindCluster] called with no lock held on a
    storage that answers returns a nil cluster, never a zero-value one,
    together with [sql.ErrNoRows]: the storage's own no-rows error, which
    is not [ClusterNotFoundError]. The Installer is left as it was. *)
Theorem FindCluster_absent_no_rows (id : string) (w : World)
        (Hfree : unlocked (inst w))
        (Hreg : find_registered id (clusters (inst w)) = None)
        (Hsto : absent_from_storage id (db (inst w)))
        (Hq : f_query (faults w) T_clusters = None) :
  exists w',
    FindCluster id w = Ret (None, Some ErrNoRows) w' /\
    inst w' = inst w /\
    trace w' = trace w ++ [AQuery clusters_query id] /\
    ErrNoRows <> ClusterNotFoundError.
Proof.
  eexists. split; [now apply FindCluster_absent|].
  split; [|split; [reflexivity | discriminate]].
  destruct w as [i f h t tr]. now destruct i.
Qed.

Lemma FindCluster_absent_no_rows_witness :
  exists w',
    FindCluster "c9" registered_world = Ret (None, Some ErrNoRows) w' /\
    inst w' = inst registered_world.
Proof.
  destruct (@FindCluster_absent_no_rows "c9" registered_world
              (conj eq_refl (conj eq_refl (conj eq_refl eq_refl)))
              eq_refl (Forall_nil _) eq_refl)
    as (w' & Hrun & Hinst & _).
  exists w'. split; [exact Hrun | exact Hinst].
Defined.

(** C1, as the claim has it, fails: on the sample installation with the
    clusters c1 and c2 registered and an empty [clusters] table, the id
    c9 is absent from both, and [FindCluster] does not return
    [ClusterNotFoundError] for it. *)
Lemma FindCluster_not_ClusterNotFoundError :
  find_registered "c9" (clusters (inst registered_world)) = None /\
  cluster_rows "c9" (db (inst registered_world)) = [] /\
  ~ exists r w',
      FindCluster "c9" registered_world = Ret r w' /\
      snd r = Some ClusterNotFoundError.
Proof.
  split; [reflexivity|]. split; [reflexivity|].
  intros (r & w' & Hrun & Herr).
  rewrite FindCluster_absent in Hrun;
    [| repeat split | reflexivity | constructor | reflexivity].
  inversion Hrun; subst r. discriminate Herr.
Qed.



(** [DeleteCluster] holds the storage lock for writing while it calls
    [FindCluster]; when the registry does not have the id, [FindCluster]
    asks for the same lock for reading and the goroutine waits for
    itself. *)
Lemma DeleteCluster_registry_miss_blocks
      (ext : Externals) (id : string) (w : World) :
  unlocked (inst w) ->
  find_registered id (clusters (inst w)) = None ->
  exists w', DeleteCluster ext id w = Block w'.
Proof.
  intros Hfree Hreg.
  destruct w as [i f h t tr]. destruct i as [d es ss cs m1 m2 m3 m4].
  destruct Hfree as (H1 & H2 & H3 & H4). simpl in *. subst.
  unfold DeleteCluster, FindCluster. step. rewrite Hreg. step.
  eexists. reflexivity.
Qed.




(** ** installer: credentials *)

(** On a [credentials] table that has no column named [id], the query of
    [FindAWSCredentials] fails on the first row it evaluates. *)
Lemma FindAWSCredentials_unknown_field
      (ext : Externals) (id : string) (w : World) :
  String.eqb id "aws_env" = false ->
  unlocked (inst w) ->
  f_query (faults w) T_credentials = None ->
  col_index "id" (schema (credentials_tbl (db (inst w)))) = None ->
  rows (credentials_tbl (db (inst w))) <> [] ->
  FindAWSCredentials ext id w
  = Ret (None, Some (ErrOther "unknown field id"))
        (with_db_trace (db (inst w)) [AQuery credentials_query id] w).
Proof.
  intros Hid Hfree Hq Hcol Hrows.
  destruct w as [i f h t tr]. destruct i as [d es ss cs m1 m2 m3 m4].
  destruct Hfree as (H1 & H2 & H3 & H4). simpl in *. subst.
  unfold FindAWSCredentials. rewrite Hid. step. rewrite Hq.
  unfold run_query. cbn [q_from q_where credentials_query get_table].
  destruct (rows (credentials_tbl d)) as [|r rs]; [congruence|].
  cbn [scan_rows]. unfold field. now rewrite Hcol.
Qed.

Lemma exec_credentials_insert (f : nat -> option error)
      (id secret : string) (d tx : DB) :
  exec_list f [VStr id; VStr secret] 0 [credentials_insert] d = (tx, None) ->
  exists r, tx = append_row T_credentials r d.
Proof.
  unfold credentials_insert. cbn [exec_list exec_stmt bind_params bind_param
                                  nth_error].
  destruct (f 0); [discriminate|].
  unfold insert_row. cbn [List.length Nat.eqb negb].
  destruct (forallb _ _); [|discriminate].
  intros H. inversion H. eexists. reflexivity.
Qed.

Lemma SaveAWSCredentials_committed (id secret : string) (w w1 : World) :
  SaveAWSCredentials id secret w = Ret None w1 ->
  exists r,
    w1 = with_db_trace
           (append_row T_credentials r (db (inst w)))
           [ABegin; AExec [credentials_insert] [VStr id; VStr secret];
            ACommit] w /\
    dbMtx (inst w) = free_mutex.
Proof.
  intros H. destruct w as [i f h t tr].
  destruct i as [d es ss cs m1 m2 m3 m4].
  unfold SaveAWSCredentials in H.
  destruct m1 as [[|] [|n1]]; step_in H; try discriminate.
  destruct (f_begin f) as [e|]; step_in H; try discriminate.
  destruct (exec_list _ _ _ _ _) as [tx [e|]] eqn:Hexec;
    step_in H; try discriminate.
  destruct (f_commit f) as [e|]; step_in H; try discriminate.
  apply exec_credentials_insert in Hexec. destruct Hexec as (r & ->).
  exists r. inversion H. step. rewrite <- !app_assoc. split; reflexivity.
Qed.

(** Whatever pair is saved, the lookup that follows fails when the
    [credentials] table has no column named [id]. *)
Lemma credentials_lookup_fails_after_save
      (ext : Externals) (id secret : string) (w w1 : World) :
  String.eqb id "aws_env" = false ->
  unlocked (inst w) ->
  f_query (faults w) T_credentials = None ->
  col_index "id" (schema (credentials_tbl (db (inst w)))) = None ->
  SaveAWSCredentials id secret w = Ret None w1 ->
  exists w2,
    FindAWSCredentials ext id w1
    = Ret (None, Some (ErrOther "unknown field id")) w2.
Proof.
  intros Hid Hfree Hq Hcol Hsave.
  apply SaveAWSCredentials_committed in Hsave.
  destruct Hsave as (r & -> & _).
  destruct w as [i f h t tr]. destruct i as [d es ss cs m1 m2 m3 m4].
  eexists. apply FindAWSCredentials_unknown_field; try assumption.
  simpl. destruct (rows (credentials_tbl d)); discriminate.
Qed.

(** C7. On the sample installation, [SaveAWSCredentials] of a fresh pair
    returns nil and the pair is a row of the [credentials] table. The
    [FindAWSCredentials] that follows does not return the pair: the
    insert names the column [ID], the query filters on a column [id],
    and the call returns the error for the unknown field. *)
Theorem credentials_do_not_round_trip :
  exists w1 w2,
    SaveAWSCredentials "AKIAEXAMPLE" "s3cr3t" sample_world = Ret None w1 /\
    rows (credentials_tbl (db (inst w1)))
      = [[VStr "AKIAEXAMPLE"; VStr "s3cr3t"]] /\
    unlocked (inst w1) /\
    FindAWSCredentials sample_ext "AKIAEXAMPLE" w1
      = Ret (None, Some (ErrOther "unknown field id")) w2.
Proof.
  eexists. eexists. split; [vm_compute; reflexivity|].
  split; [reflexivity|]. split; [repeat split|].
  apply FindAWSCredentials_unknown_field;
    try reflexivity; try (repeat split); discriminate.
Qed.

(** * Further properties *)

(** ** pkg/stream: closing *)

(** Closing channel [c] of a heap changes the state of [c] and of no
    other channel. *)
Lemma close_chan_open (h : Stream.Heap) (c : Stream.chan) :
  nth_error h c = Some Stream.ChanOpen ->
  exists h',
    Stream.close_chan c h = Ret tt h' /\
    nth_error h' c = Some Stream.ChanClosed /\
    List.length h' = List.length h /\
    forall c', c' <> c -> nth_error h' c' = nth_error h c'.
Proof.
  intros Hopen. unfold Stream.close_chan. rewrite Hopen.
  assert (Hlt : c < List.length h) by (apply nth_error_Some; congruence).
  assert (Hfirst : List.length (firstn c h) = c)
    by (rewrite length_firstn; lia).
  eexists. split; [reflexivity|]. split; [|split].
  - rewrite nth_error_app2 by lia. now rewrite Hfirst, Nat.sub_diag.
  - rewrite length_app. cbn [List.length]. rewrite Hfirst, length_skipn. lia.
  - intros c' Hne. destruct (Nat.lt_ge_cases c' c) as [Hlt'|Hge].
    + rewrite nth_error_app1 by lia. rewrite nth_error_firstn.
      apply Nat.ltb_lt in Hlt'. now rewrite Hlt'.
    + rewrite nth_error_app2 by lia. rewrite Hfirst.
      destruct (c' - c) as [|k] eqn:Hk; [lia|]. cbn [nth_error].
      rewrite nth_error_skipn. f_equal. lia.
Qed.

Lemma close_chan_closed (h : Stream.Heap) (c : Stream.chan) :
  nth_error h c = Some Stream.ChanClosed ->
  Stream.close_chan c h = Panic "close of closed channel" h.
Proof. intros H. unfold Stream.close_chan. now rewrite H. Qed.

(** X1. [Close] on a stream whose stop channel is open returns nil and
    closes that channel; every other channel of the heap keeps its
    state. *)
Theorem Close_open_stream (s : Stream.Basic) (h : Stream.Heap)
        (Honce : Stream.closeOnce s = false)
        (Hopen : nth_error h (Stream.StopCh s) = Some Stream.ChanOpen) :
  exists h',
    Stream.Close s h = Ret None h' /\
    Stream.chan_closed h' (Stream.StopCh s) = true /\
    List.length h' = List.length h /\
    forall c, c <> Stream.StopCh s -> nth_error h' c = nth_error h c.
Proof.
  destruct (close_chan_open _ _ Hopen) as (h' & Hrun & Hc & Hlen & Hframe).
  exists h'. unfold Stream.Close, bind, ret. rewrite Honce. simpl.
  rewrite Hrun. unfold Stream.chan_closed. rewrite Hc. auto.
Qed.

Lemma Close_open_stream_witness :
  exists h',
    Stream.Close (Stream.mkBasic 1 None (Stream.ABool false) false)
                 [Stream.ChanOpen; Stream.ChanOpen] = Ret None h' /\
    nth_error h' 0 = Some Stream.ChanOpen.
Proof.
  destruct (@Close_open_stream
              (Stream.mkBasic 1 None (Stream.ABool false) false)
              [Stream.ChanOpen; Stream.ChanOpen] eq_refl eq_refl)
    as (h' & Hrun & _ & _ & Hframe).
  exists h'. split; [exact Hrun|].
  rewrite (Hframe 0) by discriminate. reflexivity.
Defined.

(** X2. [Close] has a value receiver, so the flag it stores and the
    [Once] it runs belong to a copy. After a first [Close] the caller's
    stream answers [IsClosed] as it did before, and a second [Close]
    closes the stop channel again and panics. *)
Theorem Close_twice_panics (s : Stream.Basic) (h : Stream.Heap) (v : bool)
        (Honce : Stream.closeOnce s = false)
        (Hflag : Stream.closed s = Stream.ABool v)
        (Hopen : nth_error h (Stream.StopCh s) = Some Stream.ChanOpen) :
  exists h',
    Stream.Close s h = Ret None h' /\
    Stream.IsClosed s h' = Ret v h' /\
    Stream.Close s h' = Panic "close of closed channel" h'.
Proof.
  destruct (close_chan_open _ _ Hopen) as (h' & Hrun & Hc & _).
  exists h'. unfold Stream.Close, Stream.IsClosed, bind, ret.
  rewrite Honce, Hflag. simpl. rewrite Hrun.
  rewrite (close_chan_closed _ _ Hc). auto.
Qed.

Lemma Close_twice_panics_witness :
  exists b h1 h2,
    Stream.New [] = Ret b h1 /\
    Stream.Close b h1 = Ret None h2 /\
    Stream.IsClosed b h2 = Ret false h2 /\
    Stream.Close b h2 = Panic "close of closed channel" h2.
Proof.
  destruct (@Close_twice_panics
              (Stream.mkBasic 0 None (Stream.ABool false) false)
              [Stream.ChanOpen] false eq_refl eq_refl eq_refl)
    as (h2 & H1 & H2 & H3).
  exists (Stream.mkBasic 0 None (Stream.ABool false) false),
         [Stream.ChanOpen], h2.
  split; [reflexivity|]. auto.
Defined.

(** X3. Two calls of [New] give streams with different stop channels:
    closing the first stream leaves the channel of the second open. *)
Theorem New_streams_independent (h : Stream.Heap) :
  exists b1 h1 b2 h2 h3,
    Stream.New h = Ret b1 h1 /\
    Stream.New h1 = Ret b2 h2 /\
    Stream.StopCh b1 <> Stream.StopCh b2 /\
    Stream.Close b1 h2 = Ret None h3 /\
    Stream.chan_closed h3 (Stream.StopCh b1) = true /\
    Stream.chan_closed h3 (Stream.StopCh b2) = false.
Proof.
  destruct (New_starts_open_aux h) as (Hn1 & Ho1).
  destruct (New_starts_open_aux (h ++ [Stream.ChanOpen])) as (Hn2 & Ho2).
  set (b1 := Stream.mkBasic (List.length h) None (Stream.ABool false) false)
    in *.
  set (b2 := Stream.mkBasic (List.length (h ++ [Stream.ChanOpen])) None
                            (Stream.ABool false) false) in *.
  set (h2 := (h ++ [Stream.ChanOpen]) ++ [Stream.ChanOpen]) in *.
  assert (Hne : Stream.StopCh b1 <> Stream.StopCh b2).
  { simpl. rewrite length_app. simpl. lia. }
  assert (Hopen : nth_error h2 (Stream.StopCh b1) = Some Stream.ChanOpen).
  { unfold h2. rewrite nth_error_app1; [exact Ho1|].
    simpl. rewrite length_app. simpl. lia. }
  destruct (close_chan_open _ _ Hopen) as (h3 & Hrun & Hc & _ & Hframe).
  exists b1, (h ++ [Stream.ChanOpen]), b2, h2, h3.
  split; [exact Hn1|]. split; [exact Hn2|]. split; [exact Hne|].
  split; [|split].
  - unfold Stream.Close, bind, ret. cbn [Stream.closeOnce b1].
    cbn [Stream.closed_Store Stream.StopCh b1] in *. now rewrite Hrun.
  - unfold Stream.chan_closed. now rewrite Hc.
  - unfold Stream.chan_closed. rewrite Hframe by (intro E; now apply Hne).
    subst b2. cbn [Stream.StopCh]. now rewrite Ho2.
Qed.

(** ** installer: more on the storage gateway *)

Lemma placeholders_seq (offset n : nat) :
  forall k, map (fun i => i + 1 + offset) (seq k n) = seq (k + 1 + offset) n.
Proof.
  induction n as [|n IH]; intros k; [reflexivity|].
  simpl. f_equal. now rewrite IH.
Qed.

(** X4. The two loops of [saveAWSCluster] number the placeholders of the
    first insert [$1 .. $n] and those of the second [$n+1 .. $n+m], and
    collect the [n] generic fields followed by the [m] provider fields.
    Bound to these arguments, the first insert receives exactly the
    generic fields and the second exactly the provider fields. *)
Theorem saveAWSCluster_placeholders (cf af : list val) :
  let (clustersVStr, fields1) := placeholders_loop 0 0 cf [] [] in
  let (awsVStr, fields) :=
    placeholders_loop (List.length cf) 0 af [] fields1 in
  clustersVStr = seq 1 (List.length cf) /\
  awsVStr = seq (1 + List.length cf) (List.length af) /\
  fields = cf ++ af /\
  bind_params fields clustersVStr = Some cf /\
  bind_params fields awsVStr = Some af.
Proof.
  rewrite !placeholders_loop_spec. cbn [app].
  assert (H1 : map (fun i => i + 1 + 0) (seq 0 (List.length cf))
               = seq 1 (List.length cf))
    by now rewrite placeholders_seq.
  assert (H2 : map (fun i => i + 1 + List.length cf)
                   (seq 0 (List.length af))
               = seq (1 + List.length cf) (List.length af))
    by now rewrite placeholders_seq.
  split; [exact H1|]. split; [exact H2|]. split; [reflexivity|].
  split.
  - apply bind_params_left.
  - apply bind_params_right.
Qed.

(** ** installer: more on lookups *)

Lemma find_registered_app (id : string) (cs cs' : list iface) :
  find_registered id (cs ++ cs')
  = match find_registered id cs with
    | Some c => Some c
    | None => find_registered id cs'
    end.
Proof.
  induction cs as [|[v|T] cs IH]; simpl; try assumption; try reflexivity.
  destruct (String.eqb (ClusterID v) id); [reflexivity | assumption].
Qed.

(** X5. When the registry holds an AWS cluster whose [ClusterID] is the
    id asked for, [FindCluster] returns the cluster of the first such
    entry with a nil error and leaves the world as it found it: it takes
    no storage lock and reads no table, whatever the state of the
    storage. *)
Theorem FindCluster_registry_hit
        (id : string) (w : World) (pre post : list iface) (v : AWSCluster)
        (Hmtx : writer (clustersMtx (inst w)) = false)
        (Hreg : clusters (inst w) = pre ++ IAWSCluster v :: post)
        (Hid : ClusterID v = id)
        (Hpre : find_registered id pre = None) :
  FindCluster id w = Ret (Some (cluster v), None) w.
Proof.
  assert (Hfind : find_registered id (clusters (inst w))
                  = Some (cluster v)).
  { rewrite Hreg, find_registered_app, Hpre. simpl.
    now rewrite Hid, String.eqb_refl. }
  destruct w as [i f h t tr]. destruct i as [d es ss cs m1 m2 m3 m4].
  destruct m4 as [wr n4]. simpl in Hmtx. subst wr. clear Hreg.
  unfold FindCluster. step. simpl in Hfind. rewrite Hfind. step.
  reflexivity.
Qed.

Lemma FindCluster_registry_hit_witness :
  FindCluster "c2" registered_world
  = Ret (Some (sample_cluster "c2" "key1"), None) registered_world.
Proof.
  exact (@FindCluster_registry_hit "c2" registered_world
           [IAWSCluster (sample_request "c1" "key1")] []
           (sample_request "c2" "key1") eq_refl eq_refl eq_refl eq_refl).
Defined.

(** X6. [FindCluster] only reads. Whenever it returns, the Installer
    (tables, registry, event log, locks), the tasks and the storage's
    behaviour are what they were, the trace has gained storage reads
    only, at most two, and the result is either a cluster with a nil
    error or a nil cluster with an error. *)
Theorem FindCluster_read_only
        (id : string) (w w' : World) (r : option Cluster * option error)
        (Hrun : FindCluster id w = Ret r w') :
  inst w' = inst w /\
  tasks w' = tasks w /\
  faults w' = faults w /\
  (exists qs, trace w' = trace w ++ qs /\
              forallb storage_read qs = true /\
              List.length qs <= 2) /\
  match r with
  | (Some _, None) | (None, Some _) => True
  | _ => False
  end.
Proof.
  assert (Hshape : forall (tr qs : list Action) (P : Prop),
             P -> forallb storage_read qs = true -> List.length qs <= 2 ->
             (exists qs', tr ++ qs = tr ++ qs' /\
                          forallb storage_read qs' = true /\
                          List.length qs' <= 2) /\ P)
    by (intros tr qs P HP Hq Hl; split; [exists qs|]; auto).
  destruct w as [i f h t tr]. destruct i as [d es ss cs m1 m2 m3 m4].
  unfold FindCluster in Hrun.
  destruct m4 as [[|] n4]; step_in Hrun; try discriminate.
  destruct (find_registered id cs) as [c|]; step_in Hrun.
  { inversion Hrun; subst. simpl. repeat split; auto.
    exists []. rewrite app_nil_r. simpl. auto. }
  destruct m1 as [[|] n1]; step_in Hrun; try discriminate.
  destruct (match f_query f T_clusters with
            | Some e => inr e
            | None => run_query d clusters_query id
            end) as [vs|e]; step_in Hrun.
  2:{ inversion Hrun; subst. simpl. do 3 (split; [reflexivity|]).
      apply Hshape; simpl; auto. }
  destruct (scan_Cluster id vs) as [c|e]; step_in Hrun.
  2:{ inversion Hrun; subst. simpl. do 3 (split; [reflexivity|]).
      apply Hshape; simpl; auto. }
  destruct (match f_query f T_domains with
            | Some e => inr e
            | None => run_query d domains_query id
            end) as [vs'|e]; step_in Hrun.
  - destruct (scan_Domain id vs') as [dm|e]; step_in Hrun.
    + inversion Hrun; subst. simpl. do 3 (split; [reflexivity|]).
      rewrite <- app_assoc. apply Hshape; simpl; auto.
    + destruct (error_eqb e ErrNoRows); step_in Hrun;
        inversion Hrun; subst; simpl; do 3 (split; [reflexivity|]);
        rewrite <- app_assoc; apply Hshape; simpl; auto.
  - destruct (error_eqb e ErrNoRows); step_in Hrun;
      inversion Hrun; subst; simpl; do 3 (split; [reflexivity|]);
      rewrite <- app_assoc; apply Hshape; simpl; auto.
Qed.

Lemma scan_rows_no_match (sch : list string) (col : string) (key : val)
      (rs : list row) :
  Forall (fun r => exists v, field sch r col = Some v /\
                             val_eqb v key = false) rs ->
  scan_rows sch col key rs = inl None.
Proof.
  induction 1 as [|r rs (v & Hf & Hne) _ IH]; [reflexivity|].
  cbn [scan_rows]. now rewrite Hf, Hne.
Qed.

Lemma scan_Cluster_inl (id : string) (vs : list val) (c : Cluster) :
  scan_Cluster id vs = inl c -> ID c = id /\ Cluster_Domain c = None.
Proof.
  unfold scan_Cluster. intros H.
  repeat match type of H with
         | context [match ?x with _ => _ end] =>
             destruct x; try discriminate
         end.
  inversion H. split; reflexivity.
Qed.

Lemma inst_with_db_trace_same (new : list Action) (w : World) :
  inst (with_db_trace (db (inst w)) new w) = inst w.
Proof. destruct w as [i f h t tr]. now destruct i. Qed.

(** [FindCluster] on the storage path, once the cluster row is read: what
    it returns is decided by the answer of the domain query. *)
Lemma FindCluster_stored_answer
      (id : string) (w : World) (vs : list val) (c : Cluster)
      (answer : list val + error) :
  unlocked (inst w) ->
  find_registered id (clusters (inst w)) = None ->
  f_query (faults w) T_clusters = None ->
  run_query (db (inst w)) clusters_query id = inl vs ->
  scan_Cluster id vs = inl c ->
  match f_query (faults w) T_domains with
  | Some e => inr e
  | None => run_query (db (inst w)) domains_query id
  end = answer ->
  FindCluster id w
  = Ret (match match answer with
               | inl vs' => scan_Domain id vs'
               | inr e => inr e
               end with
         | inr e => if error_eqb e ErrNoRows then (Some c, None)
                    else (None, Some e)
         | inl dm => (Some (set_Domain dm c), None)
         end)
        (with_db_trace (db (inst w))
                       [AQuery clusters_query id; AQuery domains_query id]
                       w).
Proof.
  intros Hfree Hreg Hq Hrow Hscan Hans.
  destruct w as [i f h t tr]. destruct i as [d es ss cs m1 m2 m3 m4].
  destruct Hfree as (H1 & H2 & H3 & H4). simpl in *. subst m1 m2 m3 m4.
  unfold FindCluster. step. rewrite Hreg. step.
  rewrite Hq, Hrow, Hscan. step. rewrite Hans.
  rewrite <- app_assoc. cbn [app].
  destruct (match answer with inl vs' => scan_Domain id vs' | inr e => inr e
            end) as [dm|e]; [reflexivity|].
  destruct (error_eqb e ErrNoRows); reflexivity.
Qed.

(** X7. For a cluster that is stored but not registered, the domain row
    is optional: without one [FindCluster] returns the cluster with a nil
    [Domain] and a nil error; with one it returns the cluster with the
    domain attached; when the domain query fails with an error other
    than [sql.ErrNoRows] it returns that error and no cluster. *)
Theorem FindCluster_domain_optional
        (id : string) (w : World) (vs : list val) (c : Cluster)
        (Hfree : unlocked (inst w))
        (Hreg : find_registered id (clusters (inst w)) = None)
        (Hq : f_query (faults w) T_clusters = None)
        (Hrow : run_query (db (inst w)) clusters_query id = inl vs)
        (Hscan : scan_Cluster id vs = inl c) :
  let w' := with_db_trace (db (inst w))
                          [AQuery clusters_query id; AQuery domains_query id]
                          w in
  ID c = id /\ Cluster_Domain c = None /\
  (f_query (faults w) T_domains = None ->
   no_domain_row id (db (inst w)) ->
   FindCluster id w = Ret (Some c, None) w') /\
  (forall name token,
     f_query (faults w) T_domains = None ->
     run_query (db (inst w)) domains_query id
       = inl [VStr name; VStr token] ->
     FindCluster id w
       = Ret (Some (set_Domain (mkDomain id name token) c), None) w') /\
  (forall e,
     f_query (faults w) T_domains = Some e ->
     error_eqb e ErrNoRows = false ->
     FindCluster id w = Ret (None, Some e) w').
Proof.
  destruct (scan_Cluster_inl _ _ Hscan) as (HID & HDom).
  assert (Hstart := fun answer =>
            @FindCluster_stored_answer id w vs c answer Hfree Hreg Hq Hrow
                                       Hscan).
  split; [exact HID|]. split; [exact HDom|]. split; [|split].
  - intros Hqd Hno. rewrite (Hstart (inr ErrNoRows)); [reflexivity|].
    rewrite Hqd. unfold run_query.
    cbn [q_from q_where domains_query get_table].
    unfold no_domain_row in Hno.
    now rewrite (@scan_rows_no_match _ _ _ _ Hno).
  - intros name token Hqd Hdom.
    rewrite (Hstart (inl [VStr name; VStr token])); [reflexivity|].
    now rewrite Hqd.
  - intros e Hqd Hne. rewrite (Hstart (inr e)); [|now rewrite Hqd].
    now rewrite Hne.
Qed.

Lemma FindCluster_domain_optional_witness :
  exists c w',
    FindCluster "c1" stored_world = Ret (Some c, None) w' /\
    Cluster_Domain c = None /\ NumInstances c = 3%Z.
Proof.
  destruct (@FindCluster_domain_optional "c1" stored_world _ _
              (conj eq_refl (conj eq_refl (conj eq_refl eq_refl)))
              eq_refl eq_refl eq_refl eq_refl)
    as (_ & HDom & Hnone & _).
  eexists _, _. split; [apply Hnone; [reflexivity | constructor]|].
  split; [exact HDom | reflexivity].
Defined.

(** ** installer: more on credentials *)

Lemma scan_rows_found (sch : list string) (col : string) (key : val)
      (rs : list row) (r : row) :
  scan_rows sch col key rs = inl (Some r) ->
  exists pre post,
    rs = pre ++ r :: post /\
    field sch r col = Some key /\
    Forall (fun r' => exists v', field sch r' col = Some v' /\
                                 val_eqb v' key = false) pre.
Proof.
  revert r. induction rs as [|r0 rs IH]; intros r H; [discriminate|].
  cbn [scan_rows] in H.
  destruct (field sch r0 col) as [v|] eqn:Hf; [|discriminate].
  destruct (val_eqb v key) eqn:Heq.
  - inversion H; subst r0. exists [], rs. split; [reflexivity|].
    split; [|constructor].
    rewrite Hf. f_equal.
    destruct v as [|s|n], key as [|s'|n']; simpl in Heq; try discriminate.
    + apply String.eqb_eq in Heq. now subst.
    + apply Z.eqb_eq in Heq. now subst.
  - destruct (IH _ H) as (pre & post & -> & Hr & Hpre).
    exists (r0 :: pre), post. split; [reflexivity|]. split; [exact Hr|].
    constructor; [|exact Hpre]. exists v. auto.
Qed.

(** X8. For an id other than "aws_env", [FindAWSCredentials] only reads:
    whenever it returns, the Installer is what it was and the trace has
    gained the one query on [credentials]. It returns either no provider
    and an error, or a provider and a nil error; the provider is then
    built from the id that was asked for, an empty token, and the secret
    read: the [Secret] column of the first row of the table whose [id]
    column holds that id. On an empty table that answers, the error is
    [sql.ErrNoRows]. *)
Theorem FindAWSCredentials_stored_result
        (ext : Externals) (id : string) (w w' : World)
        (r : option CredentialsProvider * option error)
        (Hid : String.eqb id "aws_env" = false)
        (Hrun : FindAWSCredentials ext id w = Ret r w') :
  let tb := credentials_tbl (db (inst w)) in
  inst w' = inst w /\
  trace w' = trace w ++ [AQuery credentials_query id] /\
  ((exists e, r = (None, Some e)) \/
   (exists secret pre row post,
      r = (Some (aws_Creds id secret ""), None) /\
      f_query (faults w) T_credentials = None /\
      rows tb = pre ++ row :: post /\
      field (schema tb) row "id" = Some (VStr id) /\
      field (schema tb) row "Secret" = Some (VStr secret) /\
      Forall (fun r' => exists v', field (schema tb) r' "id" = Some v' /\
                                   val_eqb v' (VStr id) = false) pre)) /\
  (rows tb = [] ->
   f_query (faults w) T_credentials = None ->
   r = (None, Some ErrNoRows)).
Proof.
  destruct w as [i f h t tr]. destruct i as [d es ss cs m1 m2 m3 m4].
  unfold FindAWSCredentials in Hrun. rewrite Hid in Hrun.
  destruct m1 as [[|] n1]; step_in Hrun; try discriminate.
  destruct (f_query f T_credentials) as [e|] eqn:Hq; step_in Hrun.
  { inversion Hrun; subst. simpl.
    split; [reflexivity|]. split; [reflexivity|].
    split; [left; eauto | intros _ Hq'; congruence]. }
  destruct (run_query d credentials_query id) as [vs|e] eqn:Hrq;
    step_in Hrun.
  - unfold run_query in Hrq.
    cbn [q_from q_where q_select credentials_query get_table] in Hrq.
    destruct (scan_rows (schema (credentials_tbl d)) "id" (VStr id)
                        (rows (credentials_tbl d)))
      as [[row|]|e] eqn:Hscan; try discriminate.
    destruct (scan_rows_found _ _ _ _ Hscan)
      as (pre & post & Hrows & Hkey & Hpre).
    assert (Hne : rows (credentials_tbl d) <> [])
      by (rewrite Hrows; now destruct pre).
    cbn [project] in Hrq.
    destruct (field (schema (credentials_tbl d)) row "Secret")
      as [v|] eqn:Hsec; [|discriminate].
    inversion Hrq; subst vs. clear Hrq.
    destruct v as [|secret|n]; step_in Hrun;
      inversion Hrun; subst; simpl;
      (split; [reflexivity|]); (split; [reflexivity|]);
      (split; [| intros Hnil; now destruct (Hne Hnil)]);
      try (left; eauto; fail).
    right. exists secret, pre, row, post. auto 10.
  - inversion Hrun; subst. simpl.
    split; [reflexivity|]. split; [reflexivity|].
    split; [left; eauto|].
    intros Hnil _. unfold run_query in Hrq.
    cbn [q_from credentials_query get_table] in Hrq.
    rewrite Hnil in Hrq. simpl in Hrq. congruence.
Qed.

Lemma FindAWSCredentials_stored_result_witness :
  exists w',
    FindAWSCredentials sample_ext "AKIAEXAMPLE" lowercase_id_world
      = Ret (Some (mkCreds "AKIAEXAMPLE" "s3cr3t" ""), None) w' /\
    inst w' = inst lowercase_id_world.
Proof.
  assert (Hc : exists w0,
             FindAWSCredentials sample_ext "AKIAEXAMPLE" lowercase_id_world
             = Ret (Some (mkCreds "AKIAEXAMPLE" "s3cr3t" ""), None) w0)
    by (eexists; vm_compute; reflexivity).
  destruct Hc as (w0 & Hc).
  destruct (@FindAWSCredentials_stored_result sample_ext "AKIAEXAMPLE"
              lowercase_id_world w0 _ eq_refl Hc)
    as (Hinst & _).
  exists w0. split; assumption.
Defined.

Lemma col_index_nth (name : string) (sch : list string) :
  forall i, col_index name sch = Some i -> nth_error sch i = Some name.
Proof.
  induction sch as [|c sch IH]; intros i H; simpl in H; [discriminate|].
  destruct (String.eqb c name) eqn:Heq.
  - inversion H. apply String.eqb_eq in Heq. now subst.
  - destruct (col_index name sch) as [j|]; [|discriminate].
    inversion H. simpl. now apply IH.
Qed.

(** In a row built column by column, the column [name] holds what the
    builder gives for [name]. *)
Lemma field_built_row (sch : list string) (f : string -> val)
      (name : string) (i : nat) :
  col_index name sch = Some i ->
  field sch (map f sch) name = Some (f name).
Proof.
  intros H. unfold field. rewrite H. rewrite nth_error_map.
  now rewrite (col_index_nth _ _ H).
Qed.

Lemma exec_credentials_insert_row (f : nat -> option error)
      (id secret : string) (d tx : DB) :
  exec_list f [VStr id; VStr secret] 0 [credentials_insert] d = (tx, None) ->
  exists r,
    tx = append_row T_credentials r d /\
    field (schema (credentials_tbl d)) r "ID" = Some (VStr id) /\
    field (schema (credentials_tbl d)) r "Secret" = Some (VStr secret) /\
    List.length r = List.length (schema (credentials_tbl d)).
Proof.
  unfold credentials_insert. cbn [exec_list exec_stmt bind_params bind_param
                                  nth_error].
  destruct (f 0); [discriminate|].
  unfold insert_row. cbn [List.length Nat.eqb negb forallb get_table].
  destruct (col_index "ID" (schema (credentials_tbl d))) as [i|] eqn:HI;
    [|discriminate].
  destruct (col_index "Secret" (schema (credentials_tbl d))) as [j|] eqn:HS;
    [|discriminate].
  cbn [andb]. intros H. inversion H. eexists. split; [reflexivity|].
  split; [|split].
  - now rewrite (field_built_row _ _ _ HI).
  - now rewrite (field_built_row _ _ _ HS).
  - apply length_map.
Qed.

(** X9. [SaveAWSCredentials] touches the [credentials] table and nothing
    else of the Installer. When it returns nil, the table has gained one
    row, which holds the id in column [ID] and the secret in column
    [Secret]; when it returns an error, the tables are what they were.
    In both cases the storage lock is free again. *)
Theorem SaveAWSCredentials_atomic
        (id secret : string) (w w' : World) (err : option error)
        (Hrun : SaveAWSCredentials id secret w = Ret err w') :
  inst w' = set_db (db (inst w')) (inst w) /\
  dbMtx (inst w') = free_mutex /\
  tasks w' = tasks w /\
  match err with
  | Some _ => db (inst w') = db (inst w)
  | None =>
      exists r,
        db (inst w') = append_row T_credentials r (db (inst w)) /\
        field (schema (credentials_tbl (db (inst w)))) r "ID"
          = Some (VStr id) /\
        field (schema (credentials_tbl (db (inst w)))) r "Secret"
          = Some (VStr secret) /\
        List.length r
          = List.length (schema (credentials_tbl (db (inst w))))
  end.
Proof.
  destruct w as [i f h t tr]. destruct i as [d es ss cs m1 m2 m3 m4].
  unfold SaveAWSCredentials in Hrun.
  destruct m1 as [[|] [|n1]]; step_in Hrun; try discriminate.
  destruct (f_begin f) as [e|]; step_in Hrun.
  { inversion Hrun; subst. simpl. auto. }
  destruct (exec_list _ _ _ _ _) as [tx [e|]] eqn:Hexec; step_in Hrun.
  { inversion Hrun; subst. simpl. auto. }
  destruct (f_commit f) as [e|]; step_in Hrun.
  { inversion Hrun; subst. simpl. auto. }
  inversion Hrun; subst. simpl. repeat split.
  now apply exec_credentials_insert_row in Hexec.
Qed.

Lemma SaveAWSCredentials_atomic_witness :
  exists w',
    SaveAWSCredentials "AKIAEXAMPLE" "s3cr3t" sample_world = Ret None w' /\
    rows (credentials_tbl (db (inst w')))
      = [[VStr "AKIAEXAMPLE"; VStr "s3cr3t"]] /\
    dbMtx (inst w') = free_mutex.
Proof.
  assert (Hc : exists w0,
             SaveAWSCredentials "AKIAEXAMPLE" "s3cr3t" sample_world
             = Ret None w0 /\
             rows (credentials_tbl (db (inst w0)))
             = [[VStr "AKIAEXAMPLE"; VStr "s3cr3t"]])
    by (eexists; split; vm_compute; reflexivity).
  destruct Hc as (w0 & Hc & Hrows).
  destruct (@SaveAWSCredentials_atomic "AKIAEXAMPLE" "s3cr3t"
              sample_world w0 None Hc) as (_ & Hmtx & _).
  exists w0. auto.
Defined.

(** ** installer: more on [DeleteCluster] *)

(** X10. [DeleteCluster] of an id the registry does not have never
    returns, wherever else the id may be stored: it takes the storage
    lock for writing, [FindCluster] then asks for the same lock for
    reading, and the goroutine waits for itself with the storage lock
    still held. Nothing was removed or emitted. *)
Theorem DeleteCluster_deadlock
        (ext : Externals) (id : string) (w : World)
        (Hdb : dbMtx (inst w) = free_mutex)
        (Hcl : writer (clustersMtx (inst w)) = false)
        (Hreg : find_registered id (clusters (inst w)) = None) :
  exists w',
    DeleteCluster ext id w = Block w' /\
    dbMtx (inst w') = mkRWMutex true 0 /\
    clusters (inst w') = clusters (inst w) /\
    events (inst w') = events (inst w) /\
    db (inst w') = db (inst w) /\
    trace w' = trace w.
Proof.
  destruct w as [i f h t tr]. destruct i as [d es ss cs m1 m2 m3 m4].
  destruct m4 as [wr n4]. simpl in *. subst m1 wr.
  unfold DeleteCluster, FindCluster. step. rewrite Hreg. step.
  eexists. split; [reflexivity|]. simpl. auto.
Qed.

Lemma DeleteCluster_deadlock_witness :
  exists w',
    DeleteCluster sample_ext "c1" stored_world = Block w' /\
    dbMtx (inst w') = mkRWMutex true 0.
Proof.
  destruct (@DeleteCluster_deadlock sample_ext "c1" stored_world
              eq_refl eq_refl eq_refl)
    as (w' & Hrun & Hmtx & _).
  exists w'. auto.
Defined.

(** X11. [DeleteCluster] never returns an error. The only error it could
    pass on is the one of [FindCluster], and [FindCluster] returns an
    error on the storage path alone, which a [DeleteCluster] does not
    get through; a call ends with nil, with a panic, or not at all. *)
Theorem DeleteCluster_returns_no_error
        (ext : Externals) (id : string) (w : World) :
  match DeleteCluster ext id w with
  | Ret (Some _) _ => False
  | _ => True
  end.
Proof.
  destruct w as [i f h t tr]. destruct i as [d es ss cs m1 m2 m3 m4].
  unfold DeleteCluster, FindCluster, SendEvent.
  destruct m1 as [[|] [|n1]]; step; auto.
  destruct m4 as [[|] n4]; step; auto.
  destruct (find_registered id cs) as [c|]; step; auto.
  destruct n4 as [|n4]; step; auto.
  destruct (remove_loop ext id cs []) as [r|]; step; auto.
  destruct m2 as [[|] [|n2]]; step; auto.
Qed.

Lemma remove_loop_panics (ext : Externals) (id : string) (cs : list iface) :
  (exists c, In c cs /\ reflect_ID ext c = None) ->
  forall acc, remove_loop ext id cs acc = None.
Proof.
  intros (c & Hin & Hnone).
  induction cs as [|c0 cs IH]; intros acc; [destruct Hin|].
  simpl. destruct Hin as [->|Hin].
  - now rewrite Hnone.
  - destruct (reflect_ID ext c0) as [cID|]; [|reflexivity].
    destruct (negb (String.eqb cID id)); now apply IH.
Qed.

(** X12. When the registry has the id but holds an entry from which the
    [ID] field cannot be read, [DeleteCluster] panics inside its loop.
    The registry lock, taken for writing without a [defer], stays held;
    the registry, the event log and the tables are what they were. *)
Theorem DeleteCluster_panics_locked
        (ext : Externals) (id : string) (w : World) (c : Cluster)
        (bad : iface)
        (Hfree : unlocked (inst w))
        (Hreg : find_registered id (clusters (inst w)) = Some c)
        (Hin : In bad (clusters (inst w)))
        (Hbad : reflect_ID ext bad = None) :
  exists msg w',
    DeleteCluster ext id w = Panic msg w' /\
    clustersMtx (inst w') = mkRWMutex true 0 /\
    dbMtx (inst w') = free_mutex /\
    clusters (inst w') = clusters (inst w) /\
    events (inst w') = events (inst w) /\
    db (inst w') = db (inst w) /\
    trace w' = trace w.
Proof.
  destruct w as [i f h t tr]. destruct i as [d es ss cs m1 m2 m3 m4].
  destruct Hfree as (H1 & H2 & H3 & H4). simpl in *. subst m1 m2 m3 m4.
  unfold DeleteCluster, FindCluster. step. rewrite Hreg. step.
  rewrite (@remove_loop_panics ext id cs (ex_intro _ bad (conj Hin Hbad))).
  step. eexists _, _. split; [reflexivity|]. simpl. auto 10.
Qed.

Lemma DeleteCluster_panics_locked_witness :
  exists msg w',
    DeleteCluster no_ID_ext "c1" registered_world = Panic msg w' /\
    clustersMtx (inst w') = mkRWMutex true 0.
Proof.
  destruct (@DeleteCluster_panics_locked no_ID_ext "c1" registered_world
              (sample_cluster "c1" "key1")
              (IAWSCluster (sample_request "c1" "key1"))
              (conj eq_refl (conj eq_refl (conj eq_refl eq_refl)))
              eq_refl (or_introl eq_refl) eq_refl)
    as (msg & w' & Hrun & Hmtx & _).
  exists msg, w'. auto.
Defined.

(** ** installer: more on launching *)

(** What a launch of an AWS request does to the Installer, from a state
    in which no lock is held: it returns; on nil the validated request
    is the new last entry of the registry and no lock is held; on an
    error the Installer is what it was. *)
Lemma launchAWSCluster_returns
      (ext : Externals) (c c' : AWSCluster) (verr : option error)
      (w : World) :
  unlocked (inst w) ->
  SetDefaultsAndValidate ext w c = (c', verr) ->
  exists err w',
    launchAWSCluster ext c w = Ret err w' /\
    faults w' = faults w /\
    match err with
    | None =>
        verr = None /\
        clusters (inst w') = clusters (inst w) ++ [IAWSCluster c'] /\
        unlocked (inst w')
    | Some _ => inst w' = inst w
    end.
Proof.
  intros Hfree Hval.
  unfold launchAWSCluster, bind at 1, get.
  unfold bind at 1, log. rewrite Hval.
  destruct verr as [e|].
  { eexists _, _. split; [reflexivity|]. simpl. auto. }
  assert (Hdb : dbMtx (inst (validated c w)) = free_mutex)
    by (destruct Hfree as (H & _); exact H).
  destruct (@saveAWSCluster_outcome ext c' (validated c w) Hdb)
    as (err & d' & new & Hrun & Hout).
  unfold bind at 1. fold (validated c w). rewrite Hrun.
  destruct err as [e|].
  - apply save_outcome_error in Hout. destruct Hout as (-> & _).
    eexists _, _. split; [reflexivity|].
    destruct w as [i f h t tr]. now destruct i.
  - destruct w as [i f h t tr]. destruct i as [d es ss cs m1 m2 m3 m4].
    destruct Hfree as (H1 & H2 & H3 & H4). simpl in H1, H2, H3, H4. subst.
    eexists None, _. split; [unfold SendEvent, Run, validated; step;
                              reflexivity|].
    unfold unlocked. simpl. auto 10.
Qed.

(** X13. Once [LaunchCluster] has returned nil for an AWS request,
    [FindCluster] of the [ClusterID] of the validated request succeeds
    from the registry alone, without a storage read: it returns the
    cluster of the first registered entry with that [ClusterID], which
    is the launched one unless an older entry already had it. *)
Theorem LaunchCluster_then_FindCluster
        (ext : Externals) (c c' : AWSCluster) (w w' : World)
        (Hfree : unlocked (inst w))
        (Hval : SetDefaultsAndValidate ext w c = (c', None))
        (Hrun : LaunchCluster ext (IAWSCluster c) w = Ret None w') :
  FindCluster (ClusterID c') w'
  = Ret (Some (match find_registered (ClusterID c') (clusters (inst w)) with
               | Some older => older
               | None => cluster c'
               end), None) w'.
Proof.
  destruct (@launchAWSCluster_returns ext c c' None w Hfree Hval)
    as (err & w1 & Hrun1 & _ & Hpost).
  simpl in Hrun. rewrite Hrun1 in Hrun. inversion Hrun; subst err w1.
  destruct Hpost as (_ & Hcs & Hfree').
  assert (Hfind : find_registered (ClusterID c') (clusters (inst w'))
                  = Some (match find_registered (ClusterID c')
                                  (clusters (inst w)) with
                          | Some older => older
                          | None => cluster c'
                          end)).
  { rewrite Hcs, find_registered_app.
    destruct (find_registered (ClusterID c') (clusters (inst w)));
      [reflexivity|]. simpl. now rewrite String.eqb_refl. }
  clear Hrun Hrun1 Hcs.
  destruct w' as [i f h t tr]. destruct i as [d es ss cs m1 m2 m3 m4].
  destruct Hfree' as (H1 & H2 & H3 & H4). simpl in *. subst.
  unfold FindCluster. step. rewrite Hfind. step. reflexivity.
Qed.

Lemma LaunchCluster_then_FindCluster_witness :
  exists w',
    LaunchCluster sample_ext (IAWSCluster (sample_request "c3" "key1"))
                  registered_world = Ret None w' /\
    FindCluster "c3" w' = Ret (Some (sample_cluster "c3" "key1"), None) w'.
Proof.
  assert (Hc : exists w0,
             LaunchCluster sample_ext
               (IAWSCluster (sample_request "c3" "key1")) registered_world
             = Ret None w0)
    by (eexists; vm_compute; reflexivity).
  destruct Hc as (w0 & Hc). exists w0. split; [exact Hc|].
  exact (@LaunchCluster_then_FindCluster sample_ext
           (sample_request "c3" "key1") (sample_request "c3" "key1")
           registered_world w0
           (conj eq_refl (conj eq_refl (conj eq_refl eq_refl)))
           eq_refl Hc).
Defined.

(** X14. A [LaunchCluster] that starts with no lock held returns, and it
    is all or nothing for the Installer: on nil the registry is the old
    one with exactly one AWS entry added at the end and no lock is held;
    on any error (unsupported type, validation, storage) the Installer is
    what it was. *)
Theorem LaunchCluster_all_or_nothing
        (ext : Externals) (c : iface) (w : World)
        (Hfree : unlocked (inst w)) :
  exists err w',
    LaunchCluster ext c w = Ret err w' /\
    match err with
    | None =>
        exists v, clusters (inst w') = clusters (inst w) ++ [IAWSCluster v] /\
                  unlocked (inst w')
    | Some _ => inst w' = inst w
    end.
Proof.
  destruct c as [v|T].
  - destruct (SetDefaultsAndValidate ext w v) as [c' verr] eqn:Hval.
    destruct (@launchAWSCluster_returns ext v c' verr w Hfree Hval)
      as (err & w' & Hrun & _ & Hpost).
    exists err, w'. split; [exact Hrun|].
    destruct err as [e|]; [exact Hpost|].
    destruct Hpost as (_ & Hcs & Hfree'). exists c'. auto.
  - eexists _, _. split; reflexivity.
Qed.

Lemma LaunchCluster_all_or_nothing_witness :
  exists w',
    LaunchCluster sample_ext (IAWSCluster (sample_request "c3" "key1"))
                  registered_world = Ret None w' /\
    List.length (clusters (inst w')) = 3.
Proof.
  destruct (@LaunchCluster_all_or_nothing sample_ext
              (IAWSCluster (sample_request "c3" "key1")) registered_world
              (conj eq_refl (conj eq_refl (conj eq_refl eq_refl))))
    as (err & w' & Hrun & Hpost).
  assert (Hc : exists w0,
             LaunchCluster sample_ext
               (IAWSCluster (sample_request "c3" "key1")) registered_world
             = Ret None w0)
    by (eexists; vm_compute; reflexivity).
  destruct Hc as (w0 & Hc). rewrite Hrun in Hc.
  assert (Herr : err = None) by now inversion Hc.
  subst err. destruct Hpost as (v & Hcs & _).
  exists w'. split; [exact Hrun|]. rewrite Hcs, length_app. reflexivity.
Defined.

Lemma FindCluster_read_only_witness :
  exists r w',
    FindCluster "c1" stored_world = Ret r w' /\
    inst w' = inst stored_world /\
    List.length (trace w') = 2.
Proof.
  assert (Hc : exists r w0,
             FindCluster "c1" stored_world = Ret r w0 /\
             List.length (trace w0) = 2)
    by (eexists _, _; split; vm_compute; reflexivity).
  destruct Hc as (r & w0 & Hc & Hlen).
  destruct (@FindCluster_read_only "c1" stored_world w0 r Hc)
    as (Hinst & _).
  exists r, w0. auto.
Defined.

(** X16. [DeleteCluster] returns nil only for an id it found in the
    registry, from a state in which the storage lock and the registry
    lock were free, and with an [ID] readable on every registry entry.
    It hands both locks back, and it leaves the background tasks alone:
    the provisioning task of the deleted cluster is still there. *)
Theorem DeleteCluster_nil_requires
        (ext : Externals) (id : string) (w w' : World)
        (Hrun : DeleteCluster ext id w = Ret None w') :
  (exists c, find_registered id (clusters (inst w)) = Some c) /\
  Forall (fun c => reflect_ID ext c <> None) (clusters (inst w)) /\
  dbMtx (inst w) = free_mutex /\ clustersMtx (inst w) = free_mutex /\
  dbMtx (inst w') = free_mutex /\ clustersMtx (inst w') = free_mutex /\
  tasks w' = tasks w.
Proof.
  destruct w as [i f h t tr]. destruct i as [d es ss cs m1 m2 m3 m4].
  unfold DeleteCluster, FindCluster, SendEvent in Hrun.
  destruct m1 as [[|] [|n1]]; step_in Hrun; try discriminate.
  destruct m4 as [[|] n4]; step_in Hrun; try discriminate.
  destruct (find_registered id cs) as [found|] eqn:Hfind;
    step_in Hrun; try discriminate.
  destruct n4 as [|n4]; step_in Hrun; try discriminate.
  destruct (remove_loop ext id cs []) as [r|] eqn:Hloop;
    step_in Hrun; try discriminate.
  destruct m2 as [[|] [|n2]]; step_in Hrun; try discriminate.
  inversion Hrun; subst w'; clear Hrun. cbn.
  split; [eauto|]. split; [|auto 10].
  apply Forall_forall. intros c Hin Hnone.
  rewrite (@remove_loop_panics ext id cs (ex_intro _ c (conj Hin Hnone)))
    in Hloop. discriminate.
Qed.

Lemma DeleteCluster_nil_requires_witness :
  exists w',
    DeleteCluster sample_ext "c1" registered_world = Ret None w' /\
    dbMtx (inst w') = free_mutex /\ clustersMtx (inst w') = free_mutex.
Proof.
  assert (Hc : exists w0,
             DeleteCluster sample_ext "c1" registered_world = Ret None w0)
    by (eexists; vm_compute; reflexivity).
  destruct Hc as (w0 & Hc).
  destruct (@DeleteCluster_nil_requires sample_ext "c1" registered_world
              w0 Hc) as (_ & _ & _ & _ & H1 & H2 & _).
  exists w0. auto.
Defined.

Lemma scan_rows_first_match (sch : list string) (col : string) (key : val)
      (pre post : list row) (r : row) (v : val) :
  Forall (fun r' => exists v', field sch r' col = Some v' /\
                               val_eqb v' key = false) pre ->
  field sch r col = Some v ->
  val_eqb v key = true ->
  scan_rows sch col key (pre ++ r :: post) = inl (Some r).
Proof.
  intros Hpre Hf Heq.
  induction Hpre as [|r' pre (v' & Hf' & Hne) _ IH]; simpl.
  - now rewrite Hf, Heq.
  - now rewrite Hf', Hne.
Qed.

(** X17. [FindCluster] reads a stored cluster back column by column. On
    a [clusters] table with the columns of the logical schema, for an id
    that is not registered and whose first row holds the fourteen values
    below, it returns the cluster whose fields are those values, each
    under the name of its column, with a nil [Domain] when no domain row
    exists. Rows of other ids before it do not matter. *)
Theorem FindCluster_reads_stored_row
        (w : World) (pre post : list row)
        (id cred ty st ck cp dlt ca ssh vpc sub disc dns : string) (n : Z)
        (Hfree : unlocked (inst w))
        (Hreg : find_registered id (clusters (inst w)) = None)
        (Hq : forall t, f_query (faults w) t = None)
        (Hsch : schema (clusters_tbl (db (inst w)))
                = schema (clusters_tbl sample_db))
        (Hrows : rows (clusters_tbl (db (inst w)))
                 = pre ++ [VStr id; VStr cred; VStr ty; VStr st; VInt n;
                           VStr ck; VStr cp; VStr dlt; VStr ca; VStr ssh;
                           VStr vpc; VStr sub; VStr disc; VStr dns] :: post)
        (Hpre : Forall (fun r => exists v,
                          field (schema (clusters_tbl sample_db)) r "ID"
                            = Some v /\
                          val_eqb v (VStr id) = false) pre)
        (Hdom : no_domain_row id (db (inst w))) :
  exists w',
    FindCluster id w
    = Ret (Some (mkCluster id cred ty st n ck cp dlt ca ssh vpc sub disc dns
                           None), None) w' /\
    inst w' = inst w.
Proof.
  assert (Hrow : run_query (db (inst w)) clusters_query id
                 = inl [VStr cred; VStr ty; VStr st; VInt n; VStr ck;
                        VStr cp; VStr dlt; VStr ca; VStr ssh; VStr vpc;
                        VStr sub; VStr disc; VStr dns]).
  { unfold run_query. cbn [q_from q_where q_select clusters_query get_table].
    rewrite Hsch, Hrows.
    rewrite (@scan_rows_first_match _ _ _ pre post _ (VStr id) Hpre);
      [reflexivity | reflexivity | apply String.eqb_refl]. }
  eexists. split.
  - rewrite (@FindCluster_stored_answer id w _ _ (inr ErrNoRows) Hfree Hreg
               (Hq T_clusters) Hrow eq_refl); [reflexivity|].
    rewrite (Hq T_domains). unfold run_query.
    cbn [q_from q_where domains_query get_table].
    unfold no_domain_row in Hdom.
    now rewrite (@scan_rows_no_match _ _ _ _ Hdom).
  - apply inst_with_db_trace_same.
Qed.

Lemma FindCluster_reads_stored_row_witness :
  exists w',
    FindCluster "c1" stored_world
    = Ret (Some (mkCluster "c1" "key1" "aws" "running" 3 "ck" "pin" "tok"
                           "ca" "ssh" "10.0.0.0/16" "10.0.0.0/21" "disc"
                           "zone" None), None) w' /\
    inst w' = inst stored_world.
Proof.
  exact (@FindCluster_reads_stored_row stored_world [] []
           "c1" "key1" "aws" "running" "ck" "pin" "tok" "ca" "ssh"
           "10.0.0.0/16" "10.0.0.0/21" "disc" "zone" 3%Z
           (conj eq_refl (conj eq_refl (conj eq_refl eq_refl)))
           eq_refl (fun _ => eq_refl) eq_refl eq_refl
           (Forall_nil _) (Forall_nil _)).
Defined.
